(** * AISecurityMonitor: a shallow embedding of [ai_security_monitor.py]

    The monitor object, the log sink and the alert sink are one explicit
    state; every method is a computation in a small state-and-exception
    monad, so that a [raise] keeps the mutations made before it, exactly as
    Python does.  Wall-clock reads ([datetime.now()]), the outcome of each
    step of an SMTP session and the NumPy release in use are inputs of the
    methods that depend on them.

    Conventions
    - an instant is a number of microseconds ([datetime] has microsecond
      resolution) counted from 0001-01-01T00:00:00, the first [datetime];
      [isoformat] followed by [fromisoformat] is the identity on instants, so
      the ["timestamp"] entry is kept as the instant itself;
    - clock reads are arguments; where the code computes a [datetime] from
      one, the result is checked against [datetime]'s range as Python does;
    - [exn] stands for the subclasses of Python's [Exception];
    - the numbers of an input are Python floats, which NumPy stores as
      [float64]; the literal [0.01] is the binary64 value nearest to one
      hundredth. *)

From Stdlib Require Import ZArith List String Bool Lia Floats Uint63.
From Stdlib Require Import Sorting.Sorted.
From stdpp Require Import gmap strings list.
Import ListNotations.

Set Warnings "-inexact-float,-register-all".

Local Open Scope string_scope.
Local Open Scope Z_scope.
Local Open Scope list_scope.

(** ** Exceptions and the state-and-exception monad *)

(** [SMTPException] stands for the errors of [smtplib] other than
    [SMTPServerDisconnected], which closing a session treats apart. *)
Inductive exn : Type :=
| KeyError (key : string)
| TypeError (msg : string)
| ValueError (msg : string)
| ZeroDivisionError
| OverflowError
| OSError (msg : string)
| SMTPServerDisconnected (msg : string)
| SMTPException (msg : string).

Inductive result (A : Type) : Type :=
| Ok (a : A)
| Raise (e : exn).
Arguments Ok {A} a.
Arguments Raise {A} e.

Definition M (S A : Type) : Type := S -> result A * S.

Definition ret {S A} (a : A) : M S A := fun s => (Ok a, s).

Definition bind {S A B} (c : M S A) (k : A -> M S B) : M S B :=
  fun s =>
    match c s with
    | (Ok a, s') => k a s'
    | (Raise e, s') => (Raise e, s')
    end.

Definition raise {S A} (e : exn) : M S A := fun s => (Raise e, s).

Definition lift {S A} (r : result A) : M S A := fun s => (r, s).

Definition get {S} : M S S := fun s => (Ok s, s).

Definition modify {S} (f : S -> S) : M S unit := fun s => (Ok tt, f s).

(** [try: body except Exception as e: handler e]; the handler runs in the
    state the body had reached when it raised. *)
Definition try_except {S A} (body : M S A) (handler : exn -> M S A) : M S A :=
  fun s =>
    match body s with
    | (Ok a, s') => (Ok a, s')
    | (Raise e, s') => handler e s'
    end.

Notation "'let*' x := c 'in' k" := (bind c (fun x => k))
  (at level 10, x name, c at level 100, k at level 200).
Notation "c ;; k" := (bind c (fun _ => k))
  (at level 100, k at level 200, right associativity).

(** [d[key]] on a dictionary entry that may be absent. *)
Definition dict_get {A} (key : string) (entry : option A) : result A :=
  match entry with
  | Some a => Ok a
  | None => Raise (KeyError key)
  end.

(** ** Time *)

Abbreviation instant := Z (only parsing).

Definition timedelta_minutes (m : Z) : Z := m * 60000000.
Definition timedelta_hours (h : Z) : Z := h * 3600000000.

(** The last [datetime], 9999-12-31T23:59:59.999999: the last day is day
    3652059 of the calendar. *)
Definition datetime_max : Z := 3652059 * 86400000000 - 1.

Definition is_datetime (t : Z) : Prop := 0 <= t <= datetime_max.

(** [timedelta(hours=h)] for an integer [h]: the number of days, rounded
    down, must not exceed 999999999 in magnitude. *)
Definition timedelta (hours : Z) : result Z :=
  if Z.abs (hours / 24) <=? 999999999 then Ok (timedelta_hours hours)
  else Raise OverflowError.

(** [t - delta] for a [datetime] and a [timedelta]: the result must be a
    [datetime]. *)
Definition datetime_sub (t : instant) (delta : Z) : result instant :=
  if (0 <=? t - delta) && (t - delta <=? datetime_max) then Ok (t - delta)
  else Raise OverflowError.

(** ** NumPy fragment used by the pattern analysis *)

(** What callers pass as ["input_data"], as far as the analysis is followed
    here: Python floats, strings and (nested) lists of them. *)
Inductive py_value : Type :=
| PyFloat (x : float)
| PyStr (s : string)
| PyList (items : list py_value).


Inductive ndarray : Type :=
| Float64Array (shape : list nat) (data : list float)
| UnicodeArray (shape : list nat).

Definition prod_shape (shape : list nat) : nat := fold_right Nat.mul 1%nat shape.

(** The shape NumPy discovers for a nested sequence; [None] when the nesting
    is ragged. *)
Fixpoint array_shape (v : py_value) : option (list nat) :=
  match v with
  | PyFloat _ | PyStr _ => Some []
  | PyList items =>
      match List.map array_shape items with
      | [] => Some [0%nat]
      | Some s :: rest =>
          if forallb (fun o => bool_decide (o = Some s)) rest
          then Some (length items :: s)
          else None
      | None :: _ => None
      end
  end.

Fixpoint leaves (v : py_value) : list py_value :=
  match v with
  | PyList items => concat (List.map leaves items)
  | _ => [v]
  end.

Definition is_float (v : py_value) : bool :=
  match v with PyFloat _ => true | _ => false end.

Definition float_of (v : py_value) : float :=
  match v with PyFloat x => x | _ => 0%float end.

(** [np.asarray]: ragged input is rejected, an input with a string leaf
    becomes a string array, anything else a [float64] array in row-major
    order. *)
Definition np_asarray (v : py_value) : result ndarray :=
  match array_shape v with
  | None => Raise (ValueError "inhomogeneous shape")
  | Some shape =>
      if forallb is_float (leaves v)
      then Ok (Float64Array shape (List.map float_of (leaves v)))
      else Ok (UnicodeArray shape)
  end.

Definition np_abs (data : list float) : list float := List.map PrimFloat.abs data.

(** [a > c], elementwise. *)
Definition np_greater (data : list float) (c : float) : list bool :=
  List.map (fun x => PrimFloat.ltb c x) data.

Definition np_any (mask : list bool) : bool := existsb (fun b => b) mask.
Definition np_all (mask : list bool) : bool := forallb (fun b => b) mask.

Definition np_count_nonzero (data : list float) : nat :=
  length (List.filter (fun x => negb (PrimFloat.eqb x 0%float)) data).

Definition float_of_nat (n : nat) : float :=
  PrimFloat.of_uint63 (Uint63.of_Z (Z.of_nat n)).

(** Python's [int / int]: true division, [ZeroDivisionError] on a zero
    divisor.  The operands are element counts, far below 2^53, where the
    conversion to binary64 is exact. *)
Definition py_truediv (a b : nat) : result float :=
  if Nat.eqb b 0 then Raise ZeroDivisionError
  else Ok (PrimFloat.div (float_of_nat a) (float_of_nat b)).

(** The NumPy release the monitor runs on, as far as the analysis can tell:
    [np.count_nonzero(a)] is a Python integer up to NumPy 2.2 and a NumPy
    integer from NumPy 2.3 on. *)
Inductive numpy_release : Type := numpy_before_2_3 | numpy_from_2_3.

(** [np.count_nonzero(a) / a.size].  [a.size] is a Python integer.  With a
    Python integer as the count this is Python's division; with a NumPy
    integer it is NumPy's, which raises nothing: the quotient of two zeros is
    not a number. *)
Definition count_over_size (numpy : numpy_release) (count size : nat) : result float :=
  match numpy with
  | numpy_before_2_3 => py_truediv count size
  | numpy_from_2_3 => Ok (PrimFloat.div (float_of_nat count) (float_of_nat size))
  end.

(** Row-major element strides of a shape. *)
Fixpoint strides (shape : list nat) : list nat :=
  match shape with
  | [] => []
  | _ :: rest => prod_shape rest :: strides rest
  end.

Fixpoint gradient_from (data : list float) (n stride i : nat) (tail : list float)
  : list float :=
  match tail with
  | [] => []
  | x :: tail' =>
      let c := ((i / stride) mod n)%nat in
      (if Nat.eqb c 0 then
         PrimFloat.div (PrimFloat.sub (nth (i + stride) data 0%float) x) 1%float
       else if Nat.eqb c (n - 1) then
         PrimFloat.div (PrimFloat.sub x (nth (i - stride) data 0%float)) 1%float
       else
         PrimFloat.div
           (PrimFloat.sub (nth (i + stride) data 0%float) (nth (i - stride) data 0%float))
           2%float)
      :: gradient_from data n stride (S i) tail'
  end.

(** Gradient along one axis of length [n]: one-sided differences at the two
    ends, central differences inside, unit spacing. *)
Definition gradient_axis (data : list float) (n stride : nat) : list float :=
  gradient_from data n stride 0 data.

(** [np.gradient] of an array of two or more dimensions: one array per axis;
    an axis shorter than two elements is an error. *)
Definition np_gradient (shape : list nat) (data : list float)
  : result (list (list float)) :=
  if forallb (fun n => Nat.leb 2 n) shape
  then Ok (List.map (fun ns => gradient_axis data (fst ns) (snd ns))
             (combine shape (strides shape)))
  else Raise (ValueError "Shape of array too small to calculate a numerical gradient").

(** ** Data model *)

Inductive severity : Type := low | medium | high.

Global Instance severity_eq_dec : EqDecision severity.
Proof. solve_decision. Defined.

Definition severity_str (s : severity) : string :=
  match s with low => "low" | medium => "medium" | high => "high" end.

Definition severity_upper (s : severity) : string :=
  match s with low => "LOW" | medium => "MEDIUM" | high => "HIGH" end.

(** The order in which severity is said to be raised. *)
Definition severity_rank (s : severity) : nat :=
  match s with low => 0 | medium => 1 | high => 2 end.

(** The dictionary [_analyze_input_patterns] returns; its ["details"] entry
    stays the empty dictionary. *)
Record pattern_check : Type := {
  suspicious_patterns : list string;
  pattern_details : unit
}.

(** The ["details"] dictionary of an assessment: empty, or with the single
    key ["patterns"]. *)
Record details : Type := { patterns : option pattern_check }.

Record threat_assessment : Type := {
  timestamp : instant;
  ta_severity : severity;
  threats_detected : list string;
  ta_details : details
}.

Record incident : Type := {
  inc_timestamp : instant;
  inc_severity : severity;
  threats : list string;
  inc_ip_address : string;
  inc_details : details
}.

Record request_data : Type := {
  ip_address : string;
  input_data : py_value
}.

Record smtp_settings_t : Type := {
  sender : option string;
  server : option string;
  port : option Z;
  use_tls : option bool;
  username : option string;
  password : option string
}.

Record alert_thresholds_t : Type := {
  max_requests_per_minute : option Z;
  suspicious_pattern_threshold : option float;
  failed_attempts_threshold : option Z
}.

(** The [alert_settings] dictionary; every key may be absent. *)
Record alert_settings_t : Type := {
  email_recipients : option (list string);
  smtp_settings : option smtp_settings_t;
  alert_thresholds : option alert_thresholds_t
}.

Record email : Type := {
  subject : string;
  body_timestamp : instant;
  body_severity : string;
  body_threats : string;
  body_ip_address : string;
  body_details : details;
  msg_from : string;
  msg_to : string
}.

Inductive log_record : Type :=
| Warning_incident (inc : incident)
| Error_pattern_analysis (e : exn)
| Error_send_alert (e : exn).

(** The outcome of each step of an SMTP session: [None] when the step
    succeeds, the exception it raises otherwise.  [smtp_connect] is the
    outcome of [smtplib.SMTP(host, port)], the other fields are the outcomes
    of the commands of a session that has a connection. *)
Record smtp_transport : Type := {
  smtp_connect : string -> Z -> option exn;
  smtp_starttls : option exn;
  smtp_login : string -> string -> option exn;
  smtp_send_message : email -> option exn;
  smtp_quit : option exn
}.

(** The monitor object, followed by the two sinks it writes to. *)
Record monitor : Type := {
  model_name : string;
  alert_settings : alert_settings_t;
  incident_log : list incident;
  request_history : gmap string (list instant);
  log_records : list log_record;
  alert_sink : list email
}.

Definition set_incident_log (f : list incident -> list incident) (self : monitor) : monitor :=
  {| model_name := model_name self; alert_settings := alert_settings self;
     incident_log := f (incident_log self); request_history := request_history self;
     log_records := log_records self; alert_sink := alert_sink self |}.

Definition set_request_history
  (f : gmap string (list instant) -> gmap string (list instant)) (self : monitor) : monitor :=
  {| model_name := model_name self; alert_settings := alert_settings self;
     incident_log := incident_log self; request_history := f (request_history self);
     log_records := log_records self; alert_sink := alert_sink self |}.

Definition set_log_records (f : list log_record -> list log_record) (self : monitor) : monitor :=
  {| model_name := model_name self; alert_settings := alert_settings self;
     incident_log := incident_log self; request_history := request_history self;
     log_records := f (log_records self); alert_sink := alert_sink self |}.

Definition set_alert_sink (f : list email -> list email) (self : monitor) : monitor :=
  {| model_name := model_name self; alert_settings := alert_settings self;
     incident_log := incident_log self; request_history := request_history self;
     log_records := log_records self; alert_sink := f (alert_sink self) |}.

Definition logging_record (r : log_record) : M monitor unit :=
  modify (set_log_records (fun l => l ++ [r])).

(** ** The monitor *)

(** [__init__]: stores its arguments, starts with an empty incident log and
    request history, and configures logging; only the latter can fail. *)
Definition __init__ (basicConfig : string -> option exn) (today : string)
  (name : string) (settings : alert_settings_t) (logging_path : option string)
  : result monitor :=
  let default_path := "security_" +:+ name +:+ "_" +:+ today +:+ ".log" in
  let filename :=
    match logging_path with
    | Some p => if String.eqb p "" then default_path else p
    | None => default_path
    end in
  match basicConfig filename with
  | Some e => Raise e
  | None =>
      Ok {| model_name := name; alert_settings := settings;
            incident_log := []; request_history := ∅;
            log_records := []; alert_sink := [] |}
  end.

Definition _check_rate_limit (current_time : instant) (ip : string) : M monitor bool :=
  let* self := get in
  let recent_requests :=
    List.filter (fun timestamp => current_time - timestamp <? timedelta_minutes 1)
      (default [] (request_history self !! ip)) in
  modify (set_request_history (fun h => <[ip := recent_requests ++ [current_time]]> h)) ;;
  let* thresholds := lift (dict_get "alert_thresholds" (alert_thresholds (alert_settings self))) in
  let* limit := lift (dict_get "max_requests_per_minute" (max_requests_per_minute thresholds)) in
  ret (limit <? Z.of_nat (length recent_requests)).

Definition append_pattern (label : string) : M (list string) unit :=
  modify (fun suspicious => suspicious ++ [label]).

(** The body of the [try] block of [_analyze_input_patterns]; its state is
    the list [result["suspicious_patterns"]]. *)
Definition analysis_checks (numpy : numpy_release) (input : py_value)
  : M (list string) unit :=
  let* input_array := lift (np_asarray input) in
  match input_array with
  | UnicodeArray _ => raise (TypeError "ufunc 'absolute' not supported for the input types")
  | Float64Array shape data =>
      (if np_any (np_greater (np_abs data) 1e6%float)
       then append_pattern "extreme_values" else ret tt) ;;
      let* sparsity :=
        lift (count_over_size numpy (np_count_nonzero data) (prod_shape shape)) in
      (if PrimFloat.ltb sparsity 0.01%float
       then append_pattern "suspicious_sparsity" else ret tt) ;;
      if Nat.ltb 1 (length shape) then
        let* gradient := lift (np_gradient shape data) in
        if np_all (np_greater (np_abs (concat gradient)) 100%float)
        then append_pattern "potential_adversarial_pattern" else ret tt
      else ret tt
  end.

Definition _analyze_input_patterns (numpy : numpy_release) (input : py_value)
  : M monitor pattern_check :=
  match analysis_checks numpy input [] with
  | (Ok _, suspicious) =>
      ret {| suspicious_patterns := suspicious; pattern_details := tt |}
  | (Raise e, suspicious) =>
      logging_record (Error_pattern_analysis e) ;;
      ret {| suspicious_patterns := suspicious ++ ["analysis_error"]; pattern_details := tt |}
  end.

Definition smtp_call {S} (answer : option exn) : M S unit :=
  match answer with
  | None => ret tt
  | Some e => raise e
  end.

(** A command of a session: [smtplib.SMTP] opens no connection for an empty
    server name, and every command of a session without a connection raises
    [SMTPServerDisconnected]. *)
Definition smtp_command {S} (host : string) (answer : option exn) : M S unit :=
  if String.eqb host ""
  then raise (SMTPServerDisconnected "please run connect() first")
  else smtp_call answer.

(** [SMTP.__exit__]: QUIT is sent, and a connection that is already lost
    ([SMTPServerDisconnected]) is not reported; any other failure is. *)
Definition smtp_exit {S} (host : string) (answer : option exn) : M S unit :=
  try_except (smtp_command host answer)
    (fun e => match e with
              | SMTPServerDisconnected _ => ret tt
              | _ => raise e
              end).

(** [with ... as server: body]: [exit] runs whether or not the body raised,
    and an exception raised by [exit] is the one that leaves. *)
Definition with_exit {S A} (body : M S A) (exit : M S unit) : M S A :=
  fun s =>
    match body s with
    | (r, s') =>
        match exit s' with
        | (Ok _, s'') => (r, s'')
        | (Raise e, s'') => (Raise e, s'')
        end
    end.

Definition _send_alert (tr : smtp_transport) (inc : incident) : M monitor unit :=
  try_except
    (let* self := get in
     let subject_text :=
       "Security Alert: " +:+ model_name self +:+ " - "
         +:+ severity_upper (inc_severity inc) +:+ " Severity" in
     let* smtp := lift (dict_get "smtp_settings" (smtp_settings (alert_settings self))) in
     let* from := lift (dict_get "sender" (sender smtp)) in
     let* recipients := lift (dict_get "email_recipients" (email_recipients (alert_settings self))) in
     let msg :=
       {| subject := subject_text;
          body_timestamp := inc_timestamp inc;
          body_severity := severity_str (inc_severity inc);
          body_threats := String.concat ", " (threats inc);
          body_ip_address := inc_ip_address inc;
          body_details := inc_details inc;
          msg_from := from;
          msg_to := String.concat ", " recipients |} in
     let* host := lift (dict_get "server" (server smtp)) in
     let* port_number := lift (dict_get "port" (port smtp)) in
     smtp_call (smtp_connect tr host port_number) ;;
     with_exit
       ((if default false (use_tls smtp)
         then smtp_command host (smtp_starttls tr) else ret tt) ;;
        match username smtp with
        | Some user =>
            let* pass := lift (dict_get "password" (password smtp)) in
            smtp_command host (smtp_login tr user pass)
        | None => ret tt
        end ;;
        smtp_command host (smtp_send_message tr msg) ;;
        modify (set_alert_sink (fun sent => sent ++ [msg])))
       (smtp_exit host (smtp_quit tr)))
    (fun e => logging_record (Error_send_alert e)).

Definition _log_incident (tr : smtp_transport) (ta : threat_assessment) (req : request_data)
  : M monitor unit :=
  let inc :=
    {| inc_timestamp := timestamp ta;
       inc_severity := ta_severity ta;
       threats := threats_detected ta;
       inc_ip_address := ip_address req;
       inc_details := ta_details ta |} in
  logging_record (Warning_incident inc) ;;
  modify (set_incident_log (fun l => l ++ [inc])) ;;
  if bool_decide (ta_severity ta = medium) || bool_decide (ta_severity ta = high)
  then _send_alert tr inc
  else ret tt.

(** The assessment a call starts from, and the two rules applied to it. *)
Definition initial_assessment (now : instant) : threat_assessment :=
  {| timestamp := now; ta_severity := low; threats_detected := [];
     ta_details := {| patterns := None |} |}.

Definition rate_rule (exceeded : bool) (ta : threat_assessment) : threat_assessment :=
  if exceeded then
    {| timestamp := timestamp ta; ta_severity := medium;
       threats_detected := threats_detected ta ++ ["rate_limit_exceeded"];
       ta_details := ta_details ta |}
  else ta.

Definition pattern_rule (check : pattern_check) (ta : threat_assessment) : threat_assessment :=
  match suspicious_patterns check with
  | [] => ta
  | _ :: _ =>
      {| timestamp := timestamp ta; ta_severity := high;
         threats_detected := threats_detected ta ++ suspicious_patterns check;
         ta_details := {| patterns := Some check |} |}
  end.

(** [detect_threat]; [now] is the clock read for the assessment's timestamp,
    [current_time] the one made inside the rate check; [numpy] and [tr] are
    the NumPy release and the SMTP session the call meets. *)
Definition detect_threat (numpy : numpy_release) (tr : smtp_transport)
  (now current_time : instant) (req : request_data) : M monitor threat_assessment :=
  let ta0 := initial_assessment now in
  let* exceeded := _check_rate_limit current_time (ip_address req) in
  let ta1 := rate_rule exceeded ta0 in
  let* check := _analyze_input_patterns numpy (input_data req) in
  let ta2 := pattern_rule check ta1 in
  match threats_detected ta2 with
  | [] => ret tt
  | _ :: _ => _log_incident tr ta2 req
  end ;;
  ret ta2.

(** ** Incident summary *)

Record summary : Type := {
  total_incidents : nat;
  by_severity : list (severity * nat);
  unique_ips : nat;
  most_common_threats : list (string * nat)
}.

(** [threat_counts[threat] += 1] on a [defaultdict(int)]; a dictionary keeps
    its keys in the order of their first insertion. *)
Fixpoint bump (threat : string) (threat_counts : list (string * nat)) : list (string * nat) :=
  match threat_counts with
  | [] => [(threat, 1%nat)]
  | (k, c) :: rest =>
      if String.eqb k threat then (k, S c) :: rest else (k, c) :: bump threat rest
  end.

Definition count_threats (incidents : list incident) : list (string * nat) :=
  fold_left
    (fun threat_counts inc =>
       fold_left (fun counts threat => bump threat counts) (threats inc) threat_counts)
    incidents [].

(** [sorted(items, key=lambda x: x[1], reverse=True)]: a stable sort, items of
    equal count keep their order. *)
Fixpoint insert_desc (item : string * nat) (sorted : list (string * nat))
  : list (string * nat) :=
  match sorted with
  | [] => [item]
  | y :: rest =>
      if Nat.leb (snd y) (snd item) then item :: y :: rest
      else y :: insert_desc item rest
  end.

Definition sorted_desc (items : list (string * nat)) : list (string * nat) :=
  fold_right insert_desc [] items.

Definition _get_common_threats (incidents : list incident) : list (string * nat) :=
  sorted_desc (count_threats incidents).

Definition get_incident_summary (now : instant) (hours : Z) : M monitor summary :=
  let* delta := lift (timedelta hours) in
  let* cutoff_time := lift (datetime_sub now delta) in
  let* self := get in
  let recent_incidents :=
    List.filter (fun inc => cutoff_time <? inc_timestamp inc) (incident_log self) in
  ret {| total_incidents := length recent_incidents;
         by_severity :=
           List.map
             (fun sev =>
                (sev, length (List.filter (fun i => bool_decide (inc_severity i = sev))
                                recent_incidents)))
             [low; medium; high];
         unique_ips :=
           size (list_to_set (List.map inc_ip_address recent_incidents) : gset string);
         most_common_threats := _get_common_threats recent_incidents |}.

(** ** Sequences of calls *)

(** A call of [detect_threat] with what it meets: the NumPy release, the
    SMTP session, the two clock reads. *)
Record call : Type := {
  call_numpy : numpy_release;
  call_transport : smtp_transport;
  call_now : instant;
  call_time : instant;
  call_request : request_data
}.

Definition call_detect (c : call) : M monitor threat_assessment :=
  detect_threat (call_numpy c) (call_transport c) (call_now c) (call_time c)
    (call_request c).

(** The state after a sequence of [detect_threat] calls, whatever each returned
    or raised. *)
Definition run (calls : list call) (st : monitor) : monitor :=
  fold_left (fun st c => snd (call_detect c st)) calls st.

(** The states a monitor can be in: constructed, then used through its two
    public methods. *)
Inductive reachable : monitor -> Prop :=
| reachable_init basicConfig today name settings logging_path st :
    __init__ basicConfig today name settings logging_path = Ok st ->
    reachable st
| reachable_detect_threat st c :
    reachable st -> reachable (snd (call_detect c st))
| reachable_get_incident_summary st now hours :
    reachable st -> reachable (snd (get_incident_summary now hours st)).

(** The configured [max_requests_per_minute], as the rate check reads it. *)
Definition configured_limit (st : monitor) : result Z :=
  match alert_thresholds (alert_settings st) with
  | None => Raise (KeyError "alert_thresholds")
  | Some thresholds =>
      match max_requests_per_minute thresholds with
      | None => Raise (KeyError "max_requests_per_minute")
      | Some limit => Ok limit
      end
  end.

(** The requests of a source that survive pruning at [current_time]. *)
Definition recent_requests_of (st : monitor) (ip : string) (current_time : instant)
  : list instant :=
  List.filter (fun timestamp => current_time - timestamp <? timedelta_minutes 1)
    (default [] (request_history st !! ip)).

(** The labels the three pattern checks can emit, in the order of the checks. *)
Definition pattern_labels : list string :=
  ["extreme_values"; "suspicious_sparsity"; "potential_adversarial_pattern"].

(** The labels the pattern analysis returns. *)
Definition analysis_labels (numpy : numpy_release) (input : py_value) : list string :=
  match analysis_checks numpy input [] with
  | (Ok _, suspicious) => suspicious
  | (Raise _, suspicious) => suspicious ++ ["analysis_error"]
  end.

Definition incident_of (ta : threat_assessment) (req : request_data) : incident :=
  {| inc_timestamp := timestamp ta; inc_severity := ta_severity ta;
     threats := threats_detected ta; inc_ip_address := ip_address req;
     inc_details := ta_details ta |}.

Definition analysis_result (numpy : numpy_release) (input : py_value) : pattern_check :=
  {| suspicious_patterns := analysis_labels numpy input; pattern_details := tt |}.

(** The assessment [detect_threat] builds from the outcome of the rate check
    and the input. *)
Definition assess (numpy : numpy_release) (now : instant) (exceeded : bool)
  (input : py_value) : threat_assessment :=
  pattern_rule (analysis_result numpy input) (rate_rule exceeded (initial_assessment now)).

Definition rate_exceeded (limit : Z) (st : monitor) (ip : string) (current_time : instant)
  : bool :=
  limit <? Z.of_nat (length (recent_requests_of st ip current_time)).

(** The incidents a call appends: one when the assessment has a label, none
    otherwise. *)
Definition recorded (ta : threat_assessment) (req : request_data) : list incident :=
  match threats_detected ta with
  | [] => []
  | _ :: _ => [incident_of ta req]
  end.

(** Two states hold the same monitor object up to the sinks. *)
Definition same_object (st st' : monitor) : Prop :=
  model_name st' = model_name st /\
  alert_settings st' = alert_settings st /\
  incident_log st' = incident_log st /\
  request_history st' = request_history st.

(** ** Bursts of requests *)

(** The rate-check clock reads of the calls made by [src], in call order. *)
Definition source_times (src : string) (calls : list call) : list instant :=
  List.map call_time
    (List.filter (fun c => bool_decide (ip_address (call_request c) = src)) calls).

(** The rate check of the call was made within the sixty seconds that start
    at [window_start]. *)
Definition in_window (window_start : instant) (t : instant) : Prop :=
  window_start <= t < window_start + timedelta_minutes 1.

(** The entry is at least sixty seconds older than [window_start]. *)
Definition expired_at (window_start : instant) (t : instant) : Prop :=
  t + timedelta_minutes 1 <= window_start.

(** ** Vocabulary of the summary properties *)

(** The incidents a summary at [now] over [hours] hours selects. *)
Definition recent_incidents (now : instant) (hours : Z) (st : monitor) : list incident :=
  List.filter (fun inc => now - timedelta_hours hours <? inc_timestamp inc) (incident_log st).

Definition with_severity (sev : severity) (incidents : list incident) : list incident :=
  List.filter (fun i => bool_decide (inc_severity i = sev)) incidents.

(** The summary built from the selected incidents. *)
Definition summary_of (incidents : list incident) : summary :=
  {| total_incidents := length incidents;
     by_severity :=
       [(low, length (with_severity low incidents));
        (medium, length (with_severity medium incidents));
        (high, length (with_severity high incidents))];
     unique_ips := size (list_to_set (List.map inc_ip_address incidents) : gset string);
     most_common_threats := _get_common_threats incidents |}.

(** The cutoff of a summary can be computed: the window is a [timedelta] and
    its start a [datetime]. *)
Definition cutoff_representable (now : instant) (hours : Z) : bool :=
  (Z.abs (hours / 24) <=? 999999999) && (0 <=? now - timedelta_hours hours)
  && (now - timedelta_hours hours <=? datetime_max).

(** How often a label occurs in a list of labels. *)
Definition occurrences (label : string) (labels : list string) : nat :=
  length (List.filter (String.eqb label) labels).

(** The count a dictionary of counts holds for a key, 0 when the key is absent. *)
Fixpoint lookup_count (key : string) (threat_counts : list (string * nat)) : nat :=
  match threat_counts with
  | [] => 0
  | (k, c) :: rest => if String.eqb k key then c else lookup_count key rest
  end.

(** A dictionary of counts: no key twice, no zero count. *)
Definition well_formed_counts (threat_counts : list (string * nat)) : Prop :=
  List.NoDup (List.map fst threat_counts) /\
  Forall (fun item => (0 < snd item)%nat) threat_counts.

(** Counts do not increase along the list. *)
Definition descending (items : list (string * nat)) : Prop :=
  StronglySorted (fun a b => (snd b <= snd a)%nat) items.

(** ** Traces of alert attempts *)

Definition is_send_failure (r : log_record) : bool :=
  match r with Error_send_alert _ => true | _ => false end.

(** The number of "Failed to send alert" records in the log sink. *)
Definition send_failures (st : monitor) : nat :=
  length (List.filter is_send_failure (log_records st)).

(** What alert attempts leave behind: delivered messages and logged
    failures. *)
Definition alert_traces (st : monitor) : nat :=
  (length (alert_sink st) + send_failures st)%nat.

(** ** Concrete scenarios *)

Definition example_smtp : smtp_settings_t :=
  {| sender := Some "monitor@example.org"; server := Some "smtp.example.org";
     port := Some 587; use_tls := Some true;
     username := Some "monitor"; password := Some "secret" |}.

Definition example_settings (limit : Z) : alert_settings_t :=
  {| email_recipients := Some ["soc@example.org"];
     smtp_settings := Some example_smtp;
     alert_thresholds :=
       Some {| max_requests_per_minute := Some limit;
               suspicious_pattern_threshold := Some 0.5%float;
               failed_attempts_threshold := Some 3 |} |}.

(** Settings without the ["alert_thresholds"] entry. *)
Definition settings_without_thresholds : alert_settings_t :=
  {| email_recipients := Some ["soc@example.org"];
     smtp_settings := Some example_smtp;
     alert_thresholds := None |}.

Definition working_transport : smtp_transport :=
  {| smtp_connect := fun _ _ => None; smtp_starttls := None;
     smtp_login := fun _ _ => None; smtp_send_message := fun _ => None;
     smtp_quit := None |}.

Definition unreachable_transport : smtp_transport :=
  {| smtp_connect := fun _ _ => Some (OSError "Connection refused"); smtp_starttls := None;
     smtp_login := fun _ _ => None; smtp_send_message := fun _ => None;
     smtp_quit := None |}.

Definition logging_ok (filename : string) : option exn := None.

(** The monitor [__init__] returns for a model called ["clf"]. *)
Definition new_monitor (settings : alert_settings_t) : monitor :=
  {| model_name := "clf"; alert_settings := settings; incident_log := [];
     request_history := ∅; log_records := []; alert_sink := [] |}.

Definition clean_input : py_value :=
  PyList [PyFloat 1%float; PyFloat 2%float; PyFloat 3%float].

Definition extreme_input : py_value :=
  PyList [PyFloat 2000000%float; PyFloat 1%float; PyFloat 1%float].

(** A row of three values, the first of them extreme: shape (1, 3). *)
Definition extreme_row : py_value :=
  PyList [PyList [PyFloat 2000000%float; PyFloat 0%float; PyFloat 0%float]].

(** A hundred elements, of which the first [k] are 5 and the others 0. *)
Definition hundred_with (k : nat) : py_value :=
  PyList (repeat (PyFloat 5%float) k ++ repeat (PyFloat 0%float) (100 - k)).

Definition request_from (ip : string) (input : py_value) : request_data :=
  {| ip_address := ip; input_data := input |}.

(** A clean request from 10.0.0.1 whose two clock reads are both [t]. *)
Definition burst_call (t : instant) : call :=
  {| call_numpy := numpy_before_2_3; call_transport := working_transport;
     call_now := t; call_time := t;
     call_request := request_from "10.0.0.1" clean_input |}.

(** A request with an extreme value, sent while the server is unreachable. *)
Definition alarm_call (ip : string) (t : instant) : call :=
  {| call_numpy := numpy_before_2_3; call_transport := unreachable_transport;
     call_now := t; call_time := t;
     call_request := request_from ip extreme_input |}.

(** Three alarms from two addresses, the first one more than a day before the
    others, and a clean request in between. *)
Definition sample_calls : list call :=
  [alarm_call "10.0.0.1" 0;
   burst_call 90000000000;
   alarm_call "10.0.0.2" 90000000000;
   {| call_numpy := numpy_before_2_3; call_transport := working_transport;
      call_now := 90001000000; call_time := 90001000000;
      call_request := request_from "10.0.0.2" (PyList []) |}].

(** ** Vocabulary of the further properties *)

(** Every label a call can report, in the order in which the rules emit them. *)
Definition all_labels : list string :=
  ["rate_limit_exceeded"; "extreme_values"; "suspicious_sparsity";
   "potential_adversarial_pattern"; "analysis_error"].

(** The incidents written to the log sink at warning level, in order. *)
Fixpoint warned_incidents (records : list log_record) : list incident :=
  match records with
  | [] => []
  | Warning_incident inc :: rest => inc :: warned_incidents rest
  | _ :: rest => warned_incidents rest
  end.

(** A delivered message describes the incident: its subject and body were
    rendered from the incident's fields. *)
Definition describes (name : string) (msg : email) (inc : incident) : Prop :=
  subject msg = "Security Alert: " +:+ name +:+ " - "
                  +:+ severity_upper (inc_severity inc) +:+ " Severity" /\
  body_timestamp msg = inc_timestamp inc /\
  body_severity msg = severity_str (inc_severity inc) /\
  body_threats msg = String.concat ", " (threats inc) /\
  body_ip_address msg = inc_ip_address inc /\
  body_details msg = inc_details inc.

(** The settings hold everything [_send_alert] reads before it opens the
    session: sender, recipients, server and port. *)
Definition addressable (settings : alert_settings_t)
  (from : string) (recipients : list string) (host : string) (port_number : Z)
  (smtp : smtp_settings_t) : Prop :=
  smtp_settings settings = Some smtp /\
  sender smtp = Some from /\
  email_recipients settings = Some recipients /\
  server smtp = Some host /\
  port smtp = Some port_number.

(** Every step of every session succeeds. *)
Definition transport_works (tr : smtp_transport) : Prop :=
  (forall host port_number, smtp_connect tr host port_number = None) /\
  smtp_starttls tr = None /\
  (forall user pass, smtp_login tr user pass = None) /\
  (forall msg, smtp_send_message tr msg = None) /\
  smtp_quit tr = None.

(** The settings let a session be opened to a named server and, when a user
    name is set, hold the password too. *)
Definition deliverable (settings : alert_settings_t) : Prop :=
  exists from recipients host port_number smtp,
    addressable settings from recipients host port_number smtp /\
    host <> "" /\
    (username smtp = None \/ password smtp <> None).

(** Settings without the ["smtp_settings"] entry. *)
Definition settings_without_smtp : alert_settings_t :=
  {| email_recipients := Some ["soc@example.org"];
     smtp_settings := None;
     alert_thresholds :=
       Some {| max_requests_per_minute := Some 5;
               suspicious_pattern_threshold := None;
               failed_attempts_threshold := None |} |}.

(** The sum of the counts of a dictionary of counts. *)
Definition total_count (threat_counts : list (string * nat)) : nat :=
  fold_right (fun item acc => (snd item + acc)%nat) 0%nat threat_counts.

(** The labels of a list in the order in which they first occur. *)
Definition first_seen (labels : list string) : list string :=
  fold_left (fun seen label => if bool_decide (label ∈ seen) then seen else seen ++ [label])
    labels [].

(** A 2 x 2 matrix of sevens, and a 2 x 2 matrix that rises by more than a
    hundred per step along both axes. *)
Definition constant_matrix : py_value :=
  PyList [PyList [PyFloat 7%float; PyFloat 7%float];
          PyList [PyFloat 7%float; PyFloat 7%float]].

Definition steep_matrix : py_value :=
  PyList [PyList [PyFloat 1%float; PyFloat 200%float];
          PyList [PyFloat 300%float; PyFloat 600%float]].

(** Settings with a server but no credentials and no TLS. *)
Definition plain_smtp : smtp_settings_t :=
  {| sender := Some "monitor@example.org"; server := Some "smtp.example.org";
     port := Some 25; use_tls := None; username := None; password := None |}.

Definition plain_settings (limit : Z) : alert_settings_t :=
  {| email_recipients := Some ["soc@example.org"; "oncall@example.org"];
     smtp_settings := Some plain_smtp;
     alert_thresholds :=
       Some {| max_requests_per_minute := Some limit;
               suspicious_pattern_threshold := None;
               failed_attempts_threshold := None |} |}.

(** Settings whose server name is the empty string. *)
Definition unnamed_server_settings : alert_settings_t :=
  {| email_recipients := Some ["soc@example.org"];
     smtp_settings :=
       Some {| sender := Some "monitor@example.org"; server := Some "";
               port := Some 25; use_tls := None; username := None; password := None |};
     alert_thresholds :=
       Some {| max_requests_per_minute := Some 5;
               suspicious_pattern_threshold := None;
               failed_attempts_threshold := None |} |}.


(** The server accepts the message and is gone when QUIT is sent. *)
Definition vanishing_transport : smtp_transport :=
  {| smtp_connect := fun _ _ => None; smtp_starttls := None;
     smtp_login := fun _ _ => None; smtp_send_message := fun _ => None;
     smtp_quit := Some (SMTPServerDisconnected "Connection unexpectedly closed") |}.

Definition sample_incident : incident :=
  {| inc_timestamp := 0; inc_severity := high; threats := ["extreme_values"];
     inc_ip_address := "10.0.0.1"; inc_details := {| patterns := None |} |}.

(** The history a source is left with by rate checks made at the given
    instants, in that order, on a monitor that had not seen the source. *)
Definition pruned_history (times : list instant) : list instant :=
  fold_left
    (fun history t => List.filter (fun e => t - e <? timedelta_minutes 1) history ++ [t])
    times [].

(** A monitor with threshold 0 that saw 10.0.0.1 at 0 s and at 1 s. *)
Definition seen_monitor : monitor :=
  {| model_name := "clf"; alert_settings := example_settings 0; incident_log := [];
     request_history := {["10.0.0.1" := [0; 1000000]]};
     log_records := []; alert_sink := [] |}.

(** * Properties *)

(** ** How each method runs *)

Ltac unfold_monad :=
  unfold smtp_exit, smtp_command in *;
  unfold bind, ret, lift, get, modify, raise, try_except, with_exit,
    smtp_call, dict_get, logging_record in *.

(** Case analysis on an innermost scrutinee of the goal. *)
Ltac break_match :=
  match goal with
  | |- context [match ?x with _ => _ end] =>
      lazymatch x with
      | context [match _ with _ => _ end] => fail
      | _ => destruct x eqn:?
      end
  end.

Lemma same_object_refl st : same_object st st.
Proof. by repeat split. Qed.

Lemma same_object_trans st1 st2 st3 :
  same_object st1 st2 -> same_object st2 st3 -> same_object st1 st3.
Proof.
  intros (? & ? & ? & ?) (? & ? & ? & ?). repeat split; congruence.
Qed.

Lemma same_object_log_records f st : same_object st (set_log_records f st).
Proof. by repeat split. Qed.

Lemma same_object_alert_sink f st : same_object st (set_alert_sink f st).
Proof. by repeat split. Qed.

(** [_send_alert] never raises and touches nothing but the sinks. *)
Lemma _send_alert_run tr inc st :
  exists st', _send_alert tr inc st = (Ok tt, st') /\ same_object st st'.
Proof.
  unfold _send_alert. unfold_monad.
  repeat (break_match; simpl);
    eexists; (split; [reflexivity|]); by repeat split.
Qed.

Lemma _check_rate_limit_run current_time ip st :
  _check_rate_limit current_time ip st =
    (match configured_limit st with
     | Ok limit => Ok (limit <? Z.of_nat (length (recent_requests_of st ip current_time)))
     | Raise e => Raise e
     end,
     set_request_history
       (fun h => <[ip := recent_requests_of st ip current_time ++ [current_time]]> h) st).
Proof.
  unfold _check_rate_limit, configured_limit, recent_requests_of. unfold_monad. simpl.
  destruct (alert_thresholds (alert_settings st)) as [thresholds|]; [|reflexivity].
  destruct (max_requests_per_minute thresholds); reflexivity.
Qed.

(** The pattern analysis never raises; it only writes to the log sink. *)
Lemma _analyze_input_patterns_run numpy input st :
  exists st',
    _analyze_input_patterns numpy input st = (Ok (analysis_result numpy input), st') /\
    same_object st st'.
Proof.
  unfold _analyze_input_patterns, analysis_result, analysis_labels.
  destruct (analysis_checks numpy input []) as [[[]|e] suspicious]; unfold_monad; simpl;
    eexists; (split; [reflexivity|]); by repeat split.
Qed.

(** The log record the analysis writes: the error, when the checks raised. *)
Lemma _analyze_input_patterns_log numpy input st :
  exists st',
    _analyze_input_patterns numpy input st = (Ok (analysis_result numpy input), st') /\
    same_object st st' /\
    alert_sink st' = alert_sink st /\
    log_records st' =
      log_records st ++
        match analysis_checks numpy input [] with
        | (Ok _, _) => []
        | (Raise e, _) => [Error_pattern_analysis e]
        end.
Proof.
  unfold _analyze_input_patterns, analysis_result, analysis_labels.
  destruct (analysis_checks numpy input []) as [[[]|e] suspicious]; unfold_monad; simpl;
    eexists; (split; [reflexivity|]); rewrite ?app_nil_r; by repeat split.
Qed.

Lemma alert_traces_pattern_log st st' l :
  alert_sink st' = alert_sink st ->
  log_records st' = log_records st ++ l ->
  List.filter is_send_failure l = [] ->
  alert_traces st' = alert_traces st.
Proof.
  intros Hsink Hlog Hl. unfold alert_traces, send_failures.
  by rewrite Hsink, Hlog, List.filter_app, Hl, app_nil_r.
Qed.

(** The analysis leaves no trace of an alert attempt. *)
Lemma _analyze_input_patterns_traces numpy input st :
  exists st',
    _analyze_input_patterns numpy input st = (Ok (analysis_result numpy input), st') /\
    same_object st st' /\ alert_traces st' = alert_traces st.
Proof.
  destruct (_analyze_input_patterns_log numpy input st) as (st' & Hrun & Hsame & Hsink & Hlog).
  exists st'. split; [exact Hrun|]. split; [exact Hsame|].
  eapply alert_traces_pattern_log; [exact Hsink|exact Hlog|].
  by destruct (analysis_checks numpy input []) as [[[]|e] suspicious].
Qed.

(** Every run of [_send_alert] leaves a trace: the message in the alert sink,
    or the failure in the log. *)
Lemma _send_alert_leaves_trace tr inc st st' :
  _send_alert tr inc st = (Ok tt, st') -> (alert_traces st < alert_traces st')%nat.
Proof.
  unfold _send_alert. unfold_monad.
  repeat (break_match; simpl); intros [= <-];
    unfold alert_traces, send_failures; simpl;
    rewrite ?List.filter_app, ?length_app; simpl; lia.
Qed.

Lemma severity_gate_open s :
  bool_decide (s = medium) || bool_decide (s = high) = negb (bool_decide (s = low)).
Proof. by destruct s. Qed.

(** [_log_incident] never raises: it logs, appends the incident, and then, for
    a severity other than [low], runs [_send_alert] in the state that already
    holds the incident. *)
Lemma _log_incident_run tr ta req st :
  let inc := incident_of ta req in
  let st1 := set_incident_log (fun l => l ++ [inc])
               (set_log_records (fun l => l ++ [Warning_incident inc]) st) in
  exists st',
    _log_incident tr ta req st = (Ok tt, st') /\
    (if bool_decide (ta_severity ta = low) then st' = st1
     else _send_alert tr inc st1 = (Ok tt, st')) /\
    same_object st1 st'.
Proof.
  intros inc st1. unfold _log_incident. fold (incident_of ta req). fold inc.
  rewrite severity_gate_open.
  unfold bind at 1. unfold logging_record at 1. unfold modify at 1.
  unfold bind at 1. unfold modify at 1. fold st1.
  destruct (bool_decide (ta_severity ta = low)); simpl.
  - exists st1. split; [reflexivity|]. split; [reflexivity|]. apply same_object_refl.
  - destruct (_send_alert_run tr inc st1) as (st' & Hrun & Hsame).
    exists st'. rewrite Hrun. by repeat split; try apply Hsame.
Qed.

Lemma detect_threat_raises numpy tr now current_time req st e :
  configured_limit st = Raise e ->
  detect_threat numpy tr now current_time req st =
    (Raise e,
     set_request_history
       (fun h => <[ip_address req :=
                     recent_requests_of st (ip_address req) current_time ++ [current_time]]> h)
       st).
Proof.
  intros Hlimit. unfold detect_threat. unfold bind at 1.
  rewrite _check_rate_limit_run, Hlimit. reflexivity.
Qed.

Lemma detect_threat_returns numpy tr now current_time req st limit :
  configured_limit st = Ok limit ->
  let ta := assess numpy now (rate_exceeded limit st (ip_address req) current_time)
              (input_data req) in
  exists st',
    detect_threat numpy tr now current_time req st = (Ok ta, st') /\
    model_name st' = model_name st /\
    alert_settings st' = alert_settings st /\
    incident_log st' = incident_log st ++ recorded ta req /\
    request_history st' =
      <[ip_address req :=
          recent_requests_of st (ip_address req) current_time ++ [current_time]]>
        (request_history st).
Proof.
  intros Hlimit ta. unfold detect_threat. unfold bind at 1.
  rewrite _check_rate_limit_run, Hlimit.
  fold (rate_exceeded limit st (ip_address req) current_time).
  set (st0 := set_request_history _ st).
  destruct (_analyze_input_patterns_run numpy (input_data req) st0) as (st1 & Hrun1 & Hsame1).
  unfold bind at 1. rewrite Hrun1. fold (assess numpy now
    (rate_exceeded limit st (ip_address req) current_time) (input_data req)). fold ta.
  destruct Hsame1 as (Hn1 & Hs1 & Hl1 & Hh1).
  unfold recorded. destruct (threats_detected ta) eqn:Hthreats.
  - unfold bind, ret. exists st1. rewrite app_nil_r.
    split; [reflexivity|]. by rewrite Hn1, Hs1, Hl1, Hh1.
  - destruct (_log_incident_run tr ta req st1) as (st2 & Hrun2 & _ & Hsame2).
    unfold bind at 1. rewrite Hrun2. unfold ret. exists st2.
    destruct Hsame2 as (Hn2 & Hs2 & Hl2 & Hh2). simpl in *.
    split; [reflexivity|]. by rewrite Hn2, Hs2, Hl2, Hh2, Hn1, Hs1, Hl1, Hh1.
Qed.

(** ** The rate limit *)

Lemma configured_limit_settings st st' :
  alert_settings st' = alert_settings st -> configured_limit st' = configured_limit st.
Proof. unfold configured_limit. by intros ->. Qed.

Lemma source_times_app src calls calls' :
  source_times src (calls ++ calls') = source_times src calls ++ source_times src calls'.
Proof. unfold source_times. by rewrite List.filter_app, List.map_app. Qed.

Lemma source_times_one src c :
  source_times src [c] =
    if bool_decide (ip_address (call_request c) = src) then [call_time c] else [].
Proof. unfold source_times. simpl. by destruct (bool_decide _). Qed.

Lemma run_snoc calls c st : run (calls ++ [c]) st = snd (call_detect c (run calls st)).
Proof. unfold run. by rewrite fold_left_app. Qed.

(** What one call does to the settings and to the history of a source. *)
Lemma call_detect_history c st src :
  let st' := snd (call_detect c st) in
  alert_settings st' = alert_settings st /\
  default [] (request_history st' !! src) =
    if bool_decide (ip_address (call_request c) = src)
    then recent_requests_of st src (call_time c) ++ [call_time c]
    else default [] (request_history st !! src).
Proof.
  unfold call_detect. simpl.
  destruct (configured_limit st) as [limit|e] eqn:Hlimit.
  - destruct (detect_threat_returns (call_numpy c) (call_transport c) (call_now c) (call_time c)
                (call_request c) st limit Hlimit) as (st' & -> & _ & Hs & _ & Hh).
    simpl. split; [assumption|]. rewrite Hh.
    case_bool_decide as Hip.
    + subst src. by rewrite lookup_insert_eq.
    + by rewrite lookup_insert_ne.
  - rewrite (detect_threat_raises _ _ _ _ _ _ e Hlimit). simpl. split; [reflexivity|].
    case_bool_decide as Hip.
    + subst src. by rewrite lookup_insert_eq.
    + by rewrite lookup_insert_ne.
Qed.

(** *** Calls made within one window

    [window_start] opens a window of sixty seconds, [src] is the source whose
    history is followed. *)
Section Window.
Variable window_start : instant.
Variable src : string.

(** Pruning at an instant of the window drops the expired entries and keeps
    those of the window. *)
Lemma prune_window t old times :
  Forall (expired_at window_start) old ->
  Forall (in_window window_start) times ->
  in_window window_start t ->
  List.filter (fun timestamp => t - timestamp <? timedelta_minutes 1) (old ++ times) = times.
Proof.
  unfold expired_at, in_window. intros Hold Htimes Ht.
  rewrite List.filter_app.
  replace (List.filter _ old) with (@nil Z).
  - simpl. induction Htimes as [|x l Hx _ IH]; simpl; [reflexivity|].
    rewrite IH. destruct (Z.ltb_spec (t - x) (timedelta_minutes 1)); [reflexivity|lia].
  - induction Hold as [|x l Hx _ IH]; simpl; [reflexivity|].
    rewrite <- IH. destruct (Z.ltb_spec (t - x) (timedelta_minutes 1)); [lia|reflexivity].
Qed.

Lemma source_times_in_window calls :
  Forall (fun c => in_window window_start (call_time c)) calls ->
  Forall (in_window window_start) (source_times src calls).
Proof.
  unfold source_times. induction 1 as [|c l Hc _ IH]; simpl; [constructor|].
  destruct (bool_decide _); simpl; [constructor|]; assumption.
Qed.

(** After any calls made within the window, the history of a source is the
    list of its rate-check instants, preceded by expired entries only. *)
Lemma run_history calls st :
  Forall (expired_at window_start) (default [] (request_history st !! src)) ->
  Forall (fun c => in_window window_start (call_time c)) calls ->
  alert_settings (run calls st) = alert_settings st /\
  exists old,
    default [] (request_history (run calls st) !! src) = old ++ source_times src calls /\
    Forall (expired_at window_start) old.
Proof.
  intros Hold. induction calls as [|c calls IH] using rev_ind; intros Hcalls.
  - split; [reflexivity|]. exists (default [] (request_history st !! src)).
    by rewrite app_nil_r.
  - apply Forall_app in Hcalls as [Hcalls Hc]. apply Forall_inv in Hc.
    destruct (IH Hcalls) as (Hs & old & Hh & Hexp).
    rewrite run_snoc.
    destruct (call_detect_history c (run calls st) src) as [Hs' Hh'].
    split; [congruence|]. rewrite Hh', source_times_app, source_times_one.
    case_bool_decide as Hip; simpl.
    + exists []. split; [|constructor]. simpl. f_equal.
      unfold recent_requests_of. rewrite Hh.
      apply prune_window; auto using source_times_in_window.
    + exists old. by rewrite app_nil_r.
Qed.

End Window.

(** The checks emit labels of [pattern_labels] only, each at most once and in
    the order of the checks. *)
Lemma analysis_checks_sublist numpy input r suspicious :
  analysis_checks numpy input [] = (r, suspicious) -> sublist suspicious pattern_labels.
Proof.
  unfold analysis_checks, append_pattern, pattern_labels. unfold_monad.
  repeat (break_match; simpl); intros; simplify_eq; simpl;
    repeat first [apply sublist_nil | apply sublist_skip; solve [repeat constructor]
                 | apply sublist_cons | apply sublist_skip].
Qed.

Lemma analysis_labels_not_rate numpy input : ~ In "rate_limit_exceeded" (analysis_labels numpy input).
Proof.
  unfold analysis_labels.
  destruct (analysis_checks numpy input []) as [r suspicious] eqn:Hrun.
  apply analysis_checks_sublist in Hrun.
  assert (Hnot : ~ In "rate_limit_exceeded" suspicious).
  { intros Hin. apply list_elem_of_In in Hin.
    eapply elem_of_sublist in Hin; [|exact Hrun].
    apply list_elem_of_In in Hin. unfold pattern_labels in Hin. simpl in Hin.
    intuition discriminate. }
  destruct r; [exact Hnot|].
  rewrite in_app_iff. simpl. intuition discriminate.
Qed.

Lemma assess_threats numpy now exceeded input :
  threats_detected (assess numpy now exceeded input) =
    (if exceeded then ["rate_limit_exceeded"] else []) ++ analysis_labels numpy input.
Proof.
  unfold assess, pattern_rule, analysis_result, rate_rule, initial_assessment. simpl.
  destruct (analysis_labels numpy input), exceeded; simpl; reflexivity.
Qed.

Lemma assess_flags_rate numpy now exceeded input :
  In "rate_limit_exceeded" (threats_detected (assess numpy now exceeded input)) <-> exceeded = true.
Proof.
  rewrite assess_threats, in_app_iff. pose proof (analysis_labels_not_rate numpy input).
  destruct exceeded; simpl; intuition discriminate.
Qed.

(** C1 (amended): with every rate check of the run made in one sixty-second
    window and no unexpired older entry for the source, a request of the source
    is labelled [rate_limit_exceeded] exactly when the number of earlier
    requests of that source is strictly greater than the threshold; the
    request itself is recorded after them but is not counted. *)
Theorem rate_limit_counts_prior_requests
  (limit : Z) (src : string) (window_start : instant)
  (st : monitor) (earlier : list call) (c : call) :
  configured_limit st = Ok limit ->
  Forall (expired_at window_start) (default [] (request_history st !! src)) ->
  Forall (fun c => in_window window_start (call_time c)) (earlier ++ [c]) ->
  ip_address (call_request c) = src ->
  exists ta st',
    call_detect c (run earlier st) = (Ok ta, st') /\
    fst (_check_rate_limit (call_time c) src (run earlier st)) =
      Ok (limit <? Z.of_nat (length (source_times src earlier))) /\
    (In "rate_limit_exceeded" (threats_detected ta) <->
       limit < Z.of_nat (length (source_times src earlier))) /\
    request_history st' !! src = Some (source_times src earlier ++ [call_time c]).
Proof.
  intros Hlimit Hold Hwindow Hsrc.
  apply Forall_app in Hwindow as [Hearlier Hc]. apply Forall_inv in Hc.
  destruct (run_history window_start src earlier st Hold Hearlier)
    as (Hsettings & old & Hhistory & Hexpired).
  assert (Hlimit' : configured_limit (run earlier st) = Ok limit).
  { by rewrite (configured_limit_settings _ _ Hsettings). }
  assert (Hrecent : recent_requests_of (run earlier st) src (call_time c)
                    = source_times src earlier).
  { unfold recent_requests_of. rewrite Hhistory.
    apply (prune_window window_start); auto using source_times_in_window. }
  destruct (detect_threat_returns (call_numpy c) (call_transport c) (call_now c) (call_time c)
              (call_request c) (run earlier st) limit Hlimit')
    as (st' & Hrun & _ & _ & _ & Hh).
  unfold call_detect. rewrite Hrun. eexists _, st'. split; [reflexivity|].
  rewrite _check_rate_limit_run, Hlimit', Hrecent. split; [reflexivity|].
  split.
  - rewrite assess_flags_rate. unfold rate_exceeded. rewrite Hsrc, Hrecent.
    apply Z.ltb_lt.
  - rewrite Hh, Hsrc, lookup_insert_eq, Hrecent. reflexivity.
Qed.

Lemma rate_limit_counts_prior_requests_witness :
  exists ta st',
    call_detect (burst_call 3000000)
      (run [burst_call 0; burst_call 1000000; burst_call 2000000]
         (new_monitor (example_settings 2))) = (Ok ta, st') /\
    fst (_check_rate_limit 3000000 "10.0.0.1"
           (run [burst_call 0; burst_call 1000000; burst_call 2000000]
              (new_monitor (example_settings 2)))) = Ok (2 <? 3) /\
    (In "rate_limit_exceeded" (threats_detected ta) <-> 2 < 3) /\
    request_history st' !! "10.0.0.1" = Some [0; 1000000; 2000000; 3000000].
Proof.
  apply (rate_limit_counts_prior_requests 2 "10.0.0.1" 0
           (new_monitor (example_settings 2))
           [burst_call 0; burst_call 1000000; burst_call 2000000] (burst_call 3000000)).
  - reflexivity.
  - simpl. rewrite lookup_empty. constructor.
  - unfold in_window, timedelta_minutes. repeat constructor; simpl; lia.
  - reflexivity.
Defined.

(** C1, as stated, fails: with threshold 2 the third request of a burst made
    within three seconds is not labelled [rate_limit_exceeded]. *)
Lemma rate_limit_third_request_not_flagged :
  fst (call_detect (burst_call 2000000)
         (run [burst_call 0; burst_call 1000000] (new_monitor (example_settings 2))))
  = Ok {| timestamp := 2000000; ta_severity := low; threats_detected := [];
          ta_details := {| patterns := None |} |}.
Proof. vm_compute. reflexivity. Qed.

(** ** Severity *)

Lemma rate_rule_raises exceeded now :
  (severity_rank (ta_severity (initial_assessment now))
   <= severity_rank (ta_severity (rate_rule exceeded (initial_assessment now))))%nat.
Proof. destruct exceeded; simpl; lia. Qed.

(** The pattern rule never lowers the severity it is given. *)
Lemma pattern_rule_raises check ta :
  (severity_rank (ta_severity ta) <= severity_rank (ta_severity (pattern_rule check ta)))%nat.
Proof.
  unfold pattern_rule. destruct (suspicious_patterns check); simpl; [lia|].
  destruct (ta_severity ta); simpl; lia.
Qed.

(** C2: a call that returns starts from severity [low]; when only the rate
    check fires the assessment is [medium] without a [patterns] entry; when
    the pattern analysis returns a label the assessment is [high] with the
    analysis attached under [patterns], whether or not the rate check fired;
    each rule leaves the severity where it was or raises it. *)
Theorem severity_combination
  (numpy : numpy_release) (tr : smtp_transport) (now current_time : instant) (req : request_data)
  (st : monitor) (limit : Z) :
  configured_limit st = Ok limit ->
  exists exceeded check ta st',
    fst (_check_rate_limit current_time (ip_address req) st) = Ok exceeded /\
    (forall st1, fst (_analyze_input_patterns numpy (input_data req) st1) = Ok check) /\
    detect_threat numpy tr now current_time req st = (Ok ta, st') /\
    ta = pattern_rule check (rate_rule exceeded (initial_assessment now)) /\
    ta_severity (initial_assessment now) = low /\
    (exceeded = true -> suspicious_patterns check = [] ->
       ta_severity ta = medium /\ patterns (ta_details ta) = None /\
       threats_detected ta = ["rate_limit_exceeded"]) /\
    (suspicious_patterns check <> [] ->
       ta_severity ta = high /\ patterns (ta_details ta) = Some check /\
       threats_detected ta =
         (if exceeded then ["rate_limit_exceeded"] else []) ++ suspicious_patterns check) /\
    (exceeded = false -> suspicious_patterns check = [] ->
       ta_severity ta = low /\ patterns (ta_details ta) = None /\ threats_detected ta = []) /\
    (severity_rank (ta_severity (initial_assessment now))
       <= severity_rank (ta_severity (rate_rule exceeded (initial_assessment now)))
       <= severity_rank (ta_severity ta))%nat.
Proof.
  intros Hlimit.
  destruct (detect_threat_returns numpy tr now current_time req st limit Hlimit)
    as (st' & Hrun & _).
  exists (rate_exceeded limit st (ip_address req) current_time),
    (analysis_result numpy (input_data req)). eexists. exists st'.
  split; [by rewrite _check_rate_limit_run, Hlimit|].
  split.
  { intros st1. by destruct (_analyze_input_patterns_run numpy (input_data req) st1) as (? & -> & _). }
  split; [exact Hrun|]. split; [reflexivity|]. split; [reflexivity|].
  fold (assess numpy now (rate_exceeded limit st (ip_address req) current_time) (input_data req)).
  split; [|split; [|split]].
  - intros -> Hnone. unfold assess, pattern_rule. rewrite Hnone. by simpl.
  - intros Hsome. rewrite assess_threats. unfold assess, pattern_rule.
    simpl in *. destruct (analysis_labels numpy (input_data req)); [done|]. by simpl.
  - intros -> Hnone. unfold assess, pattern_rule. rewrite Hnone. by simpl.
  - split; [apply rate_rule_raises|apply pattern_rule_raises].
Qed.

Lemma severity_combination_witness :
  exists exceeded check ta st',
    fst (_check_rate_limit 0 "10.0.0.1" (new_monitor (example_settings 0))) = Ok exceeded /\
    detect_threat numpy_before_2_3 unreachable_transport 0 0 (request_from "10.0.0.1" extreme_input)
      (new_monitor (example_settings 0)) = (Ok ta, st') /\
    ta = pattern_rule check (rate_rule exceeded (initial_assessment 0)) /\
    ta_severity ta = high /\ patterns (ta_details ta) = Some check.
Proof.
  destruct (severity_combination numpy_before_2_3 unreachable_transport 0 0
              (request_from "10.0.0.1" extreme_input)
              (new_monitor (example_settings 0)) 0 eq_refl)
    as (exceeded & check & ta & st' & Hrate & Hcheck & Hrun & Hta & _ & _ & Hhigh & _).
  exists exceeded, check, ta, st'.
  repeat split; try assumption; apply Hhigh;
    pose proof (Hcheck (new_monitor (example_settings 0))) as Hc;
    vm_compute in Hc; injection Hc as <-; discriminate.
Defined.

(** ** The incident log *)

(** How [get_incident_summary] runs: it raises when the cutoff cannot be
    computed and returns the summary of the selected incidents otherwise; in
    either case the state is left as it was. *)
Lemma get_incident_summary_run now hours st :
  get_incident_summary now hours st =
    (if cutoff_representable now hours
     then Ok (summary_of (recent_incidents now hours st)) else Raise OverflowError,
     st).
Proof.
  unfold get_incident_summary, cutoff_representable, timedelta, datetime_sub. unfold_monad.
  destruct (Z.abs (hours / 24) <=? 999999999); [|reflexivity]. simpl.
  destruct ((0 <=? now - timedelta_hours hours)
            && (now - timedelta_hours hours <=? datetime_max)); reflexivity.
Qed.

Lemma get_incident_summary_state now hours st :
  snd (get_incident_summary now hours st) = st.
Proof. by rewrite get_incident_summary_run. Qed.

Lemma get_incident_summary_inv now hours st s :
  fst (get_incident_summary now hours st) = Ok s ->
  s = summary_of (recent_incidents now hours st).
Proof.
  rewrite get_incident_summary_run. simpl.
  destruct (cutoff_representable now hours); by intros [= <-].
Qed.

(** A cutoff that is a [datetime], for a clock read that is one, can be
    computed. *)
Lemma cutoff_representable_datetime now hours :
  is_datetime now -> is_datetime (now - timedelta_hours hours) ->
  cutoff_representable now hours = true.
Proof.
  unfold is_datetime, cutoff_representable, timedelta_hours, datetime_max.
  intros Hnow Hcutoff.
  rewrite !andb_true_iff, !Z.leb_le. repeat split; try lia.
  assert (-87649416 <= hours <= 87649416) by lia.
  pose proof (Z.div_le_mono _ _ 24 ltac:(lia) (proj1 H)).
  pose proof (Z.div_le_mono _ _ 24 ltac:(lia) (proj2 H)).
  change (-87649416 / 24) with (-3652059) in *.
  change (87649416 / 24) with 3652059 in *. lia.
Qed.

Lemma cutoff_not_representable now hours :
  ~ is_datetime (now - timedelta_hours hours) -> cutoff_representable now hours = false.
Proof.
  unfold is_datetime, cutoff_representable. intros Hnot.
  destruct (Z.leb_spec 0 (now - timedelta_hours hours));
    destruct (Z.leb_spec (now - timedelta_hours hours) datetime_max);
    rewrite ?andb_false_r; try reflexivity.
  destruct Hnot. by split.
Qed.

(** The summary is a function of the incident log only. *)
Lemma get_incident_summary_log now hours st st' :
  incident_log st' = incident_log st ->
  fst (get_incident_summary now hours st') = fst (get_incident_summary now hours st).
Proof.
  intros Hlog. rewrite !get_incident_summary_run. unfold recent_incidents. by rewrite Hlog.
Qed.

Lemma app_one_ne {A} (l : list A) (x : A) : l ++ [x] <> l.
Proof.
  intros Heq. apply (f_equal (@length A)) in Heq. rewrite length_app in Heq.
  simpl in Heq. lia.
Qed.

(** C3: a call appends one incident when the assessment it returns has a
    label and leaves the log as it was otherwise; after a clean request every
    summary is what it was before the request.  A call that raises appends
    nothing. *)
Theorem incident_persistence
  (numpy : numpy_release) (tr : smtp_transport) (now current_time : instant) (req : request_data) (st : monitor) :
  match detect_threat numpy tr now current_time req st with
  | (Ok ta, st') =>
      (threats_detected ta <> [] <->
         incident_log st' = incident_log st ++ [incident_of ta req]) /\
      (threats_detected ta = [] <-> incident_log st' = incident_log st) /\
      (threats_detected ta = [] ->
         forall later hours,
           fst (get_incident_summary later hours st')
           = fst (get_incident_summary later hours st))
  | (Raise _, st') => incident_log st' = incident_log st
  end.
Proof.
  destruct (configured_limit st) as [limit|e] eqn:Hlimit.
  - destruct (detect_threat_returns numpy tr now current_time req st limit Hlimit)
      as (st' & -> & _ & _ & Hlog & _).
    set (ta := assess _ _ _ _) in *. unfold recorded in Hlog.
    destruct (threats_detected ta) as [|label labels] eqn:Hthreats.
    + rewrite app_nil_r in Hlog. repeat split; try done.
      * rewrite Hlog. intros Heq. symmetry in Heq. by apply app_one_ne in Heq.
      * intros _ later hours. by apply get_incident_summary_log.
    + repeat split; try done.
      rewrite Hlog. intros Heq. by apply app_one_ne in Heq.
  - by rewrite (detect_threat_raises _ _ _ _ _ _ e Hlimit).
Qed.

(** A returned assessment with a label is never of severity [low]. *)
Lemma assess_severity numpy now exceeded input :
  threats_detected (assess numpy now exceeded input) <> [] ->
  ta_severity (assess numpy now exceeded input) <> low.
Proof.
  unfold assess, pattern_rule, analysis_result, rate_rule, initial_assessment. simpl.
  destruct (analysis_labels numpy input), exceeded; simpl; done.
Qed.

(** When a call records an incident, [_send_alert] runs on it, in a state
    whose log already ends with the incident, and brings the final state. *)
Lemma detect_threat_sends numpy tr now current_time req st limit :
  configured_limit st = Ok limit ->
  let ta := assess numpy now (rate_exceeded limit st (ip_address req) current_time)
              (input_data req) in
  threats_detected ta <> [] ->
  exists st1 st',
    detect_threat numpy tr now current_time req st = (Ok ta, st') /\
    incident_log st1 = incident_log st ++ [incident_of ta req] /\
    alert_traces st1 = alert_traces st /\
    _send_alert tr (incident_of ta req) st1 = (Ok tt, st').
Proof.
  intros Hlimit ta Hthreats. unfold detect_threat. unfold bind at 1.
  rewrite _check_rate_limit_run, Hlimit.
  fold (rate_exceeded limit st (ip_address req) current_time).
  set (st0 := set_request_history _ st).
  destruct (_analyze_input_patterns_traces numpy (input_data req) st0)
    as (st1 & Hrun1 & Hsame1 & Htraces1).
  unfold bind at 1. rewrite Hrun1. fold (assess numpy now
    (rate_exceeded limit st (ip_address req) current_time) (input_data req)). fold ta.
  destruct Hsame1 as (_ & _ & Hl1 & _).
  pose proof (assess_severity _ _ _ _ Hthreats) as Hsev. fold ta in Hsev.
  destruct (threats_detected ta) eqn:Hlabels; [done|].
  destruct (_log_incident_run tr ta req st1) as (st2 & Hrun2 & Hsend & _).
  rewrite bool_decide_eq_false_2 in Hsend by exact Hsev.
  unfold bind at 1. rewrite Hrun2. unfold ret. eexists _, st2.
  split; [reflexivity|]. refine (conj _ (conj _ Hsend)).
  - simpl. by rewrite Hl1.
  - transitivity (alert_traces st1); [|by rewrite Htraces1].
    unfold alert_traces, send_failures. simpl.
    rewrite List.filter_app. simpl. by rewrite app_nil_r.
Qed.

(** A call leaves at least one trace of an alert attempt for the incident it
    records. *)
Lemma detect_threat_traces numpy tr now current_time req st :
  let st' := snd (detect_threat numpy tr now current_time req st) in
  (alert_traces st + (length (incident_log st') - length (incident_log st))
   <= alert_traces st')%nat.
Proof.
  destruct (configured_limit st) as [limit|e] eqn:Hlimit.
  - destruct (detect_threat_returns numpy tr now current_time req st limit Hlimit)
      as (st' & Hrun & _ & _ & Hlog & _).
    set (ta := assess _ _ _ _) in *.
    destruct (threats_detected ta) as [|label labels] eqn:Hthreats.
    + rewrite Hrun. simpl. rewrite Hlog. unfold recorded. rewrite Hthreats, app_nil_r.
      revert Hrun. unfold detect_threat. unfold bind at 1.
      rewrite _check_rate_limit_run, Hlimit.
      fold (rate_exceeded limit st (ip_address req) current_time).
      set (st0 := set_request_history _ st).
      destruct (_analyze_input_patterns_traces numpy (input_data req) st0)
        as (st1 & Hrun1 & _ & Htraces1).
      unfold bind at 1. rewrite Hrun1. fold (assess numpy now
        (rate_exceeded limit st (ip_address req) current_time) (input_data req)). fold ta.
      rewrite Hthreats. unfold bind, ret. intros [= <-].
      rewrite Htraces1. unfold alert_traces, send_failures. simpl. lia.
    + assert (Hsome : threats_detected ta <> []) by by rewrite Hthreats.
      destruct (detect_threat_sends numpy tr now current_time req st limit Hlimit Hsome)
        as (st1 & st2 & Hrun2 & _ & Htraces & Hsend).
      rewrite Hrun in Hrun2. injection Hrun2 as <-.
      apply _send_alert_leaves_trace in Hsend.
      rewrite Hrun. simpl. rewrite Hlog. unfold recorded. rewrite Hthreats.
      rewrite length_app. simpl. lia.
  - rewrite (detect_threat_raises _ _ _ _ _ _ e Hlimit). simpl.
    unfold alert_traces, send_failures. simpl. lia.
Qed.

(** C4: whatever the SMTP server answers, [_send_alert] returns normally and
    leaves the incident log alone; a call of [detect_threat] returns the
    assessment it returns with a working transport, and when it records an
    incident the send is made in a state whose log already ends with that
    incident, which is still the last entry afterwards. *)
Theorem transport_failure_isolation
  (numpy : numpy_release) (tr : smtp_transport) (now current_time : instant) (req : request_data)
  (st : monitor) (limit : Z) :
  configured_limit st = Ok limit ->
  (forall inc st0, exists st0',
      _send_alert tr inc st0 = (Ok tt, st0') /\ incident_log st0' = incident_log st0) /\
  exists ta st',
    detect_threat numpy tr now current_time req st = (Ok ta, st') /\
    fst (detect_threat numpy working_transport now current_time req st) = Ok ta /\
    (threats_detected ta <> [] ->
       exists st1,
         incident_log st1 = incident_log st ++ [incident_of ta req] /\
         _send_alert tr (incident_of ta req) st1 = (Ok tt, st') /\
         incident_log st' = incident_log st ++ [incident_of ta req]).
Proof.
  intros Hlimit. split.
  { intros inc st0. destruct (_send_alert_run tr inc st0) as (st0' & Hrun & _ & _ & Hlog & _).
    by exists st0'. }
  destruct (detect_threat_returns numpy tr now current_time req st limit Hlimit)
    as (st' & Hrun & _ & _ & Hlog & _).
  destruct (detect_threat_returns numpy working_transport now current_time req st limit Hlimit)
    as (st'' & Hrun' & _).
  eexists _, st'. split; [exact Hrun|]. split; [by rewrite Hrun'|].
  intros Hthreats.
  destruct (detect_threat_sends numpy tr now current_time req st limit Hlimit Hthreats)
    as (st1 & st2 & Hrun2 & Hlog1 & _ & Hsend).
  rewrite Hrun in Hrun2. injection Hrun2 as <-.
  exists st1. split; [exact Hlog1|]. split; [exact Hsend|].
  rewrite Hlog. unfold recorded.
  destruct (threats_detected _); [done|reflexivity].
Qed.

Lemma transport_failure_isolation_witness :
  exists ta st',
    detect_threat numpy_before_2_3 unreachable_transport 0 0 (request_from "10.0.0.1" extreme_input)
      (new_monitor (example_settings 5)) = (Ok ta, st') /\
    fst (detect_threat numpy_before_2_3 working_transport 0 0 (request_from "10.0.0.1" extreme_input)
           (new_monitor (example_settings 5))) = Ok ta.
Proof.
  destruct (transport_failure_isolation numpy_before_2_3 unreachable_transport 0 0
              (request_from "10.0.0.1" extreme_input)
              (new_monitor (example_settings 5)) 5 eq_refl)
    as (_ & ta & st' & Hrun & Hsame & _).
  exists ta, st'. split; assumption.
Defined.

(** With the server unreachable the call still returns, the incident is in
    the log, nothing reaches the alert sink and the failure is logged. *)
Example unreachable_server_incident_kept :
  let '(r, st') :=
    detect_threat numpy_before_2_3 unreachable_transport 0 0 (request_from "10.0.0.1" extreme_input)
      (new_monitor (example_settings 5)) in
  exists ta,
    r = Ok ta /\ incident_log st' = [incident_of ta (request_from "10.0.0.1" extreme_input)] /\
    alert_sink st' = [] /\
    last (log_records st') = Some (Error_send_alert (OSError "Connection refused")).
Proof. vm_compute. eexists. repeat split. Qed.

(** ** Configuration *)

(** C5, as stated, fails: construction succeeds with settings that have no
    ["alert_thresholds"] entry, and the missing entry surfaces as a [KeyError]
    in the first call of [detect_threat]. *)
Lemma construction_accepts_missing_thresholds :
  __init__ logging_ok "20240101" "clf" settings_without_thresholds None
    = Ok (new_monitor settings_without_thresholds) /\
  fst (detect_threat numpy_before_2_3 working_transport 0 0 (request_from "10.0.0.1" clean_input)
         (new_monitor settings_without_thresholds))
    = Raise (KeyError "alert_thresholds").
Proof. split; reflexivity. Qed.

Lemma run_settings calls st : alert_settings (run calls st) = alert_settings st.
Proof.
  induction calls as [|c calls IH] using rev_ind; [reflexivity|].
  rewrite run_snoc.
  destruct (call_detect_history c (run calls st) "") as [Hs _]. congruence.
Qed.

(** C5 (amended): construction does not look at the settings, it fails only
    when logging cannot be configured; the thresholds entry is read by the rate
    check of each call: on a monitor built from settings that lack it every
    call of [detect_threat] raises the [KeyError], on a monitor built from
    settings that have it no call of [detect_threat] raises. *)
Theorem thresholds_read_at_call_time
  (basicConfig : string -> option exn) (today name : string)
  (settings : alert_settings_t) (logging_path : option string) :
  (forall settings',
     match __init__ basicConfig today name settings logging_path,
           __init__ basicConfig today name settings' logging_path with
     | Ok st, Ok st' => alert_settings st = settings /\ alert_settings st' = settings'
     | Raise e, Raise e' => e = e'
     | _, _ => False
     end) /\
  (forall st calls c,
     __init__ basicConfig today name settings logging_path = Ok st ->
     match alert_thresholds settings with
     | None => fst (call_detect c (run calls st)) = Raise (KeyError "alert_thresholds")
     | Some thresholds =>
         match max_requests_per_minute thresholds with
         | None =>
             fst (call_detect c (run calls st)) = Raise (KeyError "max_requests_per_minute")
         | Some _ => exists ta, fst (call_detect c (run calls st)) = Ok ta
         end
     end).
Proof.
  split.
  - intros settings'. unfold __init__. by destruct (basicConfig _).
  - intros st calls c Hinit.
    assert (Hsettings : alert_settings (run calls st) = settings).
    { rewrite run_settings. unfold __init__ in Hinit.
      destruct (basicConfig _); [discriminate|]. by injection Hinit as <-. }
    unfold call_detect.
    destruct (alert_thresholds settings) as [thresholds|] eqn:Hthresholds.
    + destruct (max_requests_per_minute thresholds) as [limit|] eqn:Hmax.
      * assert (Hlimit : configured_limit (run calls st) = Ok limit).
        { unfold configured_limit. by rewrite Hsettings, Hthresholds, Hmax. }
        destruct (detect_threat_returns (call_numpy c) (call_transport c) (call_now c) (call_time c)
                    (call_request c) (run calls st) limit Hlimit) as (st' & -> & _).
        by eexists.
      * rewrite (detect_threat_raises _ _ _ _ _ _ (KeyError "max_requests_per_minute"));
          [reflexivity|].
        unfold configured_limit. by rewrite Hsettings, Hthresholds, Hmax.
    + rewrite (detect_threat_raises _ _ _ _ _ _ (KeyError "alert_thresholds"));
        [reflexivity|].
      unfold configured_limit. by rewrite Hsettings, Hthresholds.
Qed.

(** ** The pattern analysis *)




(** C6, as stated, fails: on a row of shape (1, 3) whose first element is
    2,000,000 the gradient step raises after the extreme-value check has
    emitted its label, and [analysis_error] comes with [extreme_values]. *)
Lemma analysis_error_not_single :
  fst (_analyze_input_patterns numpy_before_2_3 extreme_row (new_monitor (example_settings 5)))
  = Ok {| suspicious_patterns := ["extreme_values"; "analysis_error"];
          pattern_details := tt |}.
Proof. vm_compute. reflexivity. Qed.

(** C6 (amended): when the checks raise, the analysis returns normally, logs
    the error and appends [analysis_error] once, as the last label, after the
    labels of the checks completed before the failure ([extreme_values],
    [suspicious_sparsity]); it is the single label when the input is not
    coerced into a numeric array. *)
Theorem analysis_failure_appends_error
  (numpy : numpy_release) (input : py_value) (e : exn) (emitted : list string) (st : monitor) :
  analysis_checks numpy input [] = (Raise e, emitted) ->
  sublist emitted ["extreme_values"; "suspicious_sparsity"] /\
  ~ In "analysis_error" emitted /\
  ((forall shape data, np_asarray input <> Ok (Float64Array shape data)) -> emitted = []) /\
  exists st',
    _analyze_input_patterns numpy input st =
      (Ok {| suspicious_patterns := emitted ++ ["analysis_error"]; pattern_details := tt |},
       st') /\
    same_object st st' /\
    log_records st' = log_records st ++ [Error_pattern_analysis e].
Proof.
  intros Hrun.
  assert (Hsub : sublist emitted ["extreme_values"; "suspicious_sparsity"]).
  { revert Hrun. unfold analysis_checks, append_pattern. unfold_monad.
    repeat (break_match; simpl); intros; simplify_eq; simpl;
      repeat first [apply sublist_nil | apply sublist_skip; solve [repeat constructor]
                   | apply sublist_cons | apply sublist_skip]. }
  split; [exact Hsub|]. split.
  { intros Hin. apply list_elem_of_In in Hin.
    eapply elem_of_sublist in Hin; [|exact Hsub].
    apply list_elem_of_In in Hin. simpl in Hin. intuition discriminate. }
  split.
  { intros Hnot. revert Hrun. unfold analysis_checks. unfold_monad.
    destruct (np_asarray input) as [[shape data|shape]|e0] eqn:Harray.
    - by destruct (Hnot shape data).
    - by intros [= _ <-].
    - by intros [= _ <-]. }
  destruct (_analyze_input_patterns_log numpy input st) as (st' & Hrun' & Hsame & _ & Hlog).
  exists st'. unfold analysis_result, analysis_labels in Hrun'. rewrite Hrun in Hrun', Hlog.
  by repeat split; try apply Hsame.
Qed.

Lemma analysis_failure_appends_error_witness :
  exists st',
    _analyze_input_patterns numpy_before_2_3 extreme_row (new_monitor (example_settings 5)) =
      (Ok {| suspicious_patterns := ["extreme_values"] ++ ["analysis_error"];
             pattern_details := tt |}, st') /\
    same_object (new_monitor (example_settings 5)) st' /\
    log_records st' =
      log_records (new_monitor (example_settings 5)) ++
        [Error_pattern_analysis
           (ValueError "Shape of array too small to calculate a numerical gradient")].
Proof.
  apply (analysis_failure_appends_error numpy_before_2_3 extreme_row
           (ValueError "Shape of array too small to calculate a numerical gradient")
           ["extreme_values"] (new_monitor (example_settings 5))).
  vm_compute. reflexivity.
Defined.

(** One in a hundred is not below the literal 0.01, none in a hundred is. *)
Lemma sparsity_of_one_in_hundred numpy :
  exists q, count_over_size numpy 1 100 = Ok q /\ PrimFloat.ltb q 0.01%float = false.
Proof. destruct numpy; eexists; (split; [reflexivity|]); vm_compute; reflexivity. Qed.

Lemma sparsity_of_none_in_hundred numpy :
  exists q, count_over_size numpy 0 100 = Ok q /\ PrimFloat.ltb q 0.01%float = true.
Proof. destruct numpy; eexists; (split; [reflexivity|]); vm_compute; reflexivity. Qed.

(** C7, as stated, fails in its first sentence: a hundred elements of which
    exactly one is not zero do not yield [suspicious_sparsity]. *)
Lemma one_nonzero_in_hundred_not_sparse :
  np_asarray (hundred_with 1)
    = Ok (Float64Array [100%nat] (5%float :: repeat 0%float 99)) /\
  analysis_labels numpy_before_2_3 (hundred_with 1) = [].
Proof. split; vm_compute; reflexivity. Qed.

(** C7 (amended): for an array of a hundred elements the sparsity test is the
    strict comparison of the non-zero fraction with 0.01: with exactly one
    non-zero element the label [suspicious_sparsity] is not emitted, with none
    it is. *)
Theorem sparsity_boundary (numpy : numpy_release) (input : py_value) (shape : list nat) (data : list float) :
  np_asarray input = Ok (Float64Array shape data) ->
  prod_shape shape = 100%nat ->
  (np_count_nonzero data = 1%nat -> ~ In "suspicious_sparsity" (analysis_labels numpy input)) /\
  (np_count_nonzero data = 0%nat -> In "suspicious_sparsity" (analysis_labels numpy input)).
Proof.
  intros Harray Hsize.
  split; intros Hcount; unfold analysis_labels, analysis_checks, append_pattern;
    unfold bind at 1; unfold lift at 1; rewrite Harray; cbv beta iota;
    rewrite Hsize, Hcount.
  - destruct (sparsity_of_one_in_hundred numpy) as (q & -> & Hq).
    unfold_monad. rewrite Hq.
    repeat (break_match; simpl); intros; simplify_eq; simpl; intuition discriminate.
  - destruct (sparsity_of_none_in_hundred numpy) as (q & -> & Hq).
    unfold_monad. rewrite Hq.
    repeat (break_match; simpl); intros; simplify_eq; simpl; intuition.
Qed.

Lemma sparsity_boundary_witness :
  ~ In "suspicious_sparsity" (analysis_labels numpy_before_2_3 (hundred_with 1)).
Proof.
  apply (sparsity_boundary numpy_before_2_3 (hundred_with 1) [100%nat] (5%float :: repeat 0%float 99)).
  - vm_compute. reflexivity.
  - reflexivity.
  - vm_compute. reflexivity.
Defined.

(** With no non-zero element among the hundred the label is emitted. *)
Example no_nonzero_in_hundred_sparse :
  analysis_labels numpy_before_2_3 (hundred_with 0) = ["suspicious_sparsity"].
Proof. vm_compute. reflexivity. Qed.

Lemma long_axes_nonempty shape :
  forallb (fun n => Nat.leb 2 n) shape = true -> prod_shape shape <> 0%nat.
Proof.
  induction shape as [|n shape IH]; [simpl; lia|].
  cbn [forallb]. intros [Hn Hrest]%andb_prop. apply Nat.leb_le in Hn.
  specialize (IH Hrest). unfold prod_shape in *. cbn [fold_right]. nia.
Qed.





(** An empty array of two dimensions on NumPy 2.3: the gradient fails, and
    the call is rated [high] with [analysis_error]. *)
Example empty_matrix_on_numpy_2_3 :
  fst (detect_threat numpy_from_2_3 working_transport 0 0
         {| ip_address := "10.0.0.1"; input_data := PyList [PyList []] |}
         (new_monitor (example_settings 5)))
  = Ok {| timestamp := 0; ta_severity := high; threats_detected := ["analysis_error"];
          ta_details :=
            {| patterns :=
                 Some {| suspicious_patterns := ["analysis_error"]; pattern_details := tt |} |} |}.
Proof. vm_compute. reflexivity. Qed.

(** ** The summary *)

Lemma bump_lookup key threat threat_counts :
  lookup_count key (bump threat threat_counts) =
    if String.eqb threat key then S (lookup_count key threat_counts)
    else lookup_count key threat_counts.
Proof.
  induction threat_counts as [|[k c] rest IH]; simpl.
  - reflexivity.
  - destruct (String.eqb_spec k threat) as [->|Hk]; simpl.
    + by destruct (String.eqb threat key).
    + destruct (String.eqb_spec k key) as [->|Hkey].
      * destruct (String.eqb_spec threat key); [congruence|reflexivity].
      * exact IH.
Qed.

Lemma bump_keys threat threat_counts :
  List.map fst (bump threat threat_counts) =
    List.map fst threat_counts ++
      (if bool_decide (threat ∈ List.map fst threat_counts) then [] else [threat]).
Proof.
  induction threat_counts as [|[k c] rest IH].
  - cbn [bump List.map app]. by rewrite bool_decide_eq_false_2 by apply not_elem_of_nil.
  - cbn [bump List.map fst]. destruct (String.eqb_spec k threat) as [->|Hk].
    + cbn [List.map fst]. rewrite bool_decide_eq_true_2 by apply list_elem_of_here.
      by rewrite app_nil_r.
    + cbn [List.map fst]. rewrite IH. cbn [app]. f_equal. f_equal.
      rewrite (bool_decide_ext (threat ∈ k :: List.map fst rest)
                 (threat ∈ List.map fst rest)); [reflexivity|].
      rewrite elem_of_cons. intuition congruence.
Qed.

Lemma bump_positive threat threat_counts :
  Forall (fun item => (0 < snd item)%nat) threat_counts ->
  Forall (fun item => (0 < snd item)%nat) (bump threat threat_counts).
Proof.
  induction 1 as [|[k c] rest Hc Hrest IH]; simpl.
  - repeat constructor.
  - destruct (String.eqb k threat); constructor; simpl in *; try assumption; lia.
Qed.

Lemma bump_well_formed threat threat_counts :
  well_formed_counts threat_counts -> well_formed_counts (bump threat threat_counts).
Proof.
  intros [Hkeys Hpos]. split; [|by apply bump_positive].
  rewrite bump_keys. case_bool_decide as Hin; [by rewrite app_nil_r|].
  apply NoDup_ListNoDup. apply NoDup_ListNoDup in Hkeys.
  apply NoDup_app. split; [exact Hkeys|]. split.
  - by intros x Hx ->%list_elem_of_singleton.
  - apply NoDup_singleton.
Qed.

Lemma lookup_count_absent key threat_counts :
  ~ In key (List.map fst threat_counts) -> lookup_count key threat_counts = 0%nat.
Proof.
  induction threat_counts as [|[k c] rest IH]; simpl; [reflexivity|].
  intros Hnot. destruct (String.eqb_spec k key); [tauto|]. apply IH. tauto.
Qed.

(** In a well-formed dictionary the items are the keys paired with their
    non-zero counts. *)
Lemma well_formed_items key n threat_counts :
  well_formed_counts threat_counts ->
  In (key, n) threat_counts <-> n = lookup_count key threat_counts /\ (0 < n)%nat.
Proof.
  intros [Hkeys Hpos]. induction threat_counts as [|[k c] rest IH]; simpl.
  - split; [tauto|lia].
  - simpl in Hkeys. apply List.NoDup_cons_iff in Hkeys as [Hk Hkeys].
    apply Forall_cons in Hpos as [Hc Hpos]. simpl in Hc.
    specialize (IH Hkeys Hpos).
    destruct (String.eqb_spec k key) as [->|Hne].
    + split.
      * intros [[= ->]|Hin]; [by split|].
        destruct Hk. apply in_map_iff. by exists (key, n).
      * intros [-> _]. by left.
    + rewrite IH. split; [|tauto]. intros [[= ? ?]|?]; [congruence|tauto].
Qed.

Lemma count_threats_concat incidents :
  count_threats incidents =
    fold_left (fun counts threat => bump threat counts)
      (concat (List.map threats incidents)) [].
Proof.
  unfold count_threats. generalize (@nil (string * nat)) as counts.
  induction incidents as [|inc incidents IH]; intros counts; simpl; [reflexivity|].
  by rewrite fold_left_app, IH.
Qed.

Lemma occurrences_snoc key labels label :
  occurrences key (labels ++ [label]) =
    if String.eqb label key then S (occurrences key labels) else occurrences key labels.
Proof.
  unfold occurrences. rewrite List.filter_app, length_app. simpl.
  rewrite (String.eqb_sym key label). destruct (String.eqb label key); simpl; lia.
Qed.

(** Counting labels one by one yields a well-formed dictionary that holds,
    for each label, the number of its occurrences. *)
Lemma tally_spec labels :
  well_formed_counts (fold_left (fun counts threat => bump threat counts) labels []) /\
  forall key,
    lookup_count key (fold_left (fun counts threat => bump threat counts) labels [])
    = occurrences key labels.
Proof.
  induction labels as [|label labels [IHwf IHcount]] using rev_ind.
  - split; [|reflexivity]. split; constructor.
  - rewrite fold_left_app. simpl. split; [by apply bump_well_formed|].
    intros key. by rewrite bump_lookup, occurrences_snoc, IHcount.
Qed.

Lemma insert_desc_permutation item items :
  Permutation (insert_desc item items) (item :: items).
Proof.
  induction items as [|y rest IH]; simpl; [reflexivity|].
  destruct (Nat.leb (snd y) (snd item)); [reflexivity|].
  rewrite IH. apply perm_swap.
Qed.

Lemma sorted_desc_permutation items : Permutation (sorted_desc items) items.
Proof.
  induction items as [|item items IH]; simpl; [reflexivity|].
  by rewrite insert_desc_permutation, IH.
Qed.

Lemma insert_desc_sorted item items :
  Sorted (fun a b => (snd b <= snd a)%nat) items ->
  Sorted (fun a b => (snd b <= snd a)%nat) (insert_desc item items).
Proof.
  induction 1 as [|y rest Hrest IH Hhd]; simpl.
  - repeat constructor.
  - destruct (Nat.leb_spec (snd y) (snd item)) as [Hle|Hlt].
    + repeat constructor; assumption.
    + constructor; [exact IH|].
      destruct rest as [|z rest]; simpl.
      * constructor. lia.
      * destruct (Nat.leb (snd z) (snd item)); constructor; [lia|].
        by apply HdRel_inv in Hhd.
Qed.

Lemma sorted_desc_descending items : descending (sorted_desc items).
Proof.
  unfold descending. apply Sorted_StronglySorted.
  - intros a b c Hab Hbc. lia.
  - induction items as [|item items IH]; simpl; [constructor|].
    by apply insert_desc_sorted.
Qed.

Lemma well_formed_permutation items items' :
  Permutation items items' -> well_formed_counts items -> well_formed_counts items'.
Proof.
  intros Hperm [Hkeys Hpos]. split.
  - eapply Permutation_NoDup; [|exact Hkeys]. by apply Permutation_map.
  - by rewrite <- Hperm.
Qed.

Lemma lookup_count_permutation key items items' :
  Permutation items items' -> well_formed_counts items ->
  lookup_count key items' = lookup_count key items.
Proof.
  intros Hperm Hwf.
  pose proof (well_formed_permutation _ _ Hperm Hwf) as Hwf'.
  destruct (Nat.eq_dec (lookup_count key items) 0%nat) as [Hzero|Hpos].
  - rewrite Hzero. destruct (Nat.eq_dec (lookup_count key items') 0%nat) as [|Hpos']; [done|].
    assert (Hin : In (key, lookup_count key items') items').
    { apply well_formed_items; [done|]. split; [done|lia]. }
    apply (Permutation_in _ (Permutation_sym Hperm)) in Hin.
    apply well_formed_items in Hin; [|done]. lia.
  - assert (Hin : In (key, lookup_count key items) items).
    { apply well_formed_items; [done|]. split; [done|lia]. }
    apply (Permutation_in _ Hperm) in Hin.
    apply well_formed_items in Hin; [|done]. by destruct Hin as [-> _].
Qed.

(** What [_get_common_threats] returns: every label of the incidents once,
    with the number of its occurrences, in descending order of that number. *)
Lemma _get_common_threats_spec incidents :
  descending (_get_common_threats incidents) /\
  List.NoDup (List.map fst (_get_common_threats incidents)) /\
  forall label n,
    In (label, n) (_get_common_threats incidents) <->
    n = occurrences label (concat (List.map threats incidents)) /\ (0 < n)%nat.
Proof.
  unfold _get_common_threats. rewrite count_threats_concat.
  destruct (tally_spec (concat (List.map threats incidents))) as [Hwf Hcount].
  set (counts := fold_left _ _ _) in *.
  pose proof (sorted_desc_permutation counts) as Hperm.
  assert (Hwf' : well_formed_counts (sorted_desc counts)).
  { eapply well_formed_permutation; [|exact Hwf]. by symmetry. }
  split; [apply sorted_desc_descending|]. split; [apply Hwf'|].
  intros label n. rewrite (well_formed_items label n _ Hwf').
  rewrite (lookup_count_permutation label counts (sorted_desc counts)); [|by symmetry|done].
  by rewrite Hcount.
Qed.

(** The incidents a summary selects: those of the log, in the order of the
    log, whose timestamp is strictly later than the cutoff. *)
Lemma recent_incidents_spec now hours st :
  (forall inc,
     In inc (recent_incidents now hours st) <->
     In inc (incident_log st) /\ now - hours * 3600000000 < inc_timestamp inc) /\
  sublist (recent_incidents now hours st) (incident_log st).
Proof.
  split.
  - intros inc. unfold recent_incidents, timedelta_hours.
    rewrite List.filter_In, Z.ltb_lt. reflexivity.
  - unfold recent_incidents. generalize (incident_log st) as l.
    induction l as [|inc l IH]; simpl; [constructor|].
    destruct (_ <? _); by constructor.
Qed.

(** What the summary of a list of incidents holds. *)
Lemma summary_of_spec incidents :
  total_incidents (summary_of incidents) = length incidents /\
  by_severity (summary_of incidents) =
    [(low, length (with_severity low incidents));
     (medium, length (with_severity medium incidents));
     (high, length (with_severity high incidents))] /\
  (exists ips,
     List.NoDup ips /\
     (forall ip, In ip ips <-> exists inc, In inc incidents /\ inc_ip_address inc = ip) /\
     unique_ips (summary_of incidents) = length ips) /\
  descending (most_common_threats (summary_of incidents)) /\
  List.NoDup (List.map fst (most_common_threats (summary_of incidents))) /\
  (forall label n,
     In (label, n) (most_common_threats (summary_of incidents)) <->
     n = occurrences label (concat (List.map threats incidents)) /\ (0 < n)%nat).
Proof.
  split; [reflexivity|]. split; [reflexivity|]. split.
  { exists (elements (list_to_set (List.map inc_ip_address incidents) : gset string)).
    split; [apply NoDup_ListNoDup, NoDup_elements|]. split; [|reflexivity].
    intros ip. rewrite <- list_elem_of_In, elem_of_elements, elem_of_list_to_set.
    rewrite list_elem_of_In, in_map_iff.
    split; intros (inc & Hinc & Hin); exists inc; by split. }
  apply _get_common_threats_spec.
Qed.

(** C8, as stated, fails: a call with [hours] = 1,000,000,000, made in the
    year 2025, does not return a summary; the cutoff lies before the first
    [datetime] and the subtraction raises [OverflowError]. *)
Lemma summary_of_a_billion_hours_raises :
  is_datetime 63900000000000000 /\
  get_incident_summary 63900000000000000 1000000000 (new_monitor (example_settings 5))
  = (Raise OverflowError, new_monitor (example_settings 5)).
Proof. split; [by vm_compute|reflexivity]. Qed.

(** C8 (amended): a call whose cutoff, [now] minus [hours] hours, is a
    [datetime] returns a summary computed from exactly the logged incidents
    whose timestamp is strictly later than the cutoff; it holds their number,
    their number per severity with the three keys always there, the number of
    distinct source addresses among them, and the labels with their numbers of
    occurrences in descending order.  A call whose cutoff is not a [datetime]
    raises [OverflowError].  In both cases the state, incident log included,
    is left as it was. *)
Theorem summary_windowing_and_structure (now : instant) (hours : Z) (st : monitor) :
  is_datetime now ->
  (is_datetime (now - hours * 3600000000) ->
   exists s,
     get_incident_summary now hours st = (Ok s, st) /\
     (forall inc,
        In inc (recent_incidents now hours st) <->
        In inc (incident_log st) /\ now - hours * 3600000000 < inc_timestamp inc) /\
     sublist (recent_incidents now hours st) (incident_log st) /\
     total_incidents s = length (recent_incidents now hours st) /\
     by_severity s =
       [(low, length (with_severity low (recent_incidents now hours st)));
        (medium, length (with_severity medium (recent_incidents now hours st)));
        (high, length (with_severity high (recent_incidents now hours st)))] /\
     (exists ips,
        List.NoDup ips /\
        (forall ip,
           In ip ips <->
           exists inc, In inc (recent_incidents now hours st) /\ inc_ip_address inc = ip) /\
        unique_ips s = length ips) /\
     descending (most_common_threats s) /\
     List.NoDup (List.map fst (most_common_threats s)) /\
     (forall label n,
        In (label, n) (most_common_threats s) <->
        n = occurrences label (concat (List.map threats (recent_incidents now hours st)))
        /\ (0 < n)%nat)) /\
  (~ is_datetime (now - hours * 3600000000) ->
   get_incident_summary now hours st = (Raise OverflowError, st)).
Proof.
  intros Hnow. change (hours * 3600000000) with (timedelta_hours hours). split.
  - intros Hcutoff. exists (summary_of (recent_incidents now hours st)).
    rewrite get_incident_summary_run, (cutoff_representable_datetime _ _ Hnow Hcutoff).
    split; [reflexivity|].
    destruct (recent_incidents_spec now hours st) as [Hin Hsub].
    split; [exact Hin|]. split; [exact Hsub|]. apply summary_of_spec.
  - intros Hcutoff.
    by rewrite get_incident_summary_run, (cutoff_not_representable _ _ Hcutoff).
Qed.

Lemma summary_windowing_and_structure_witness :
  exists s,
    get_incident_summary 90002000000 24 (run sample_calls (new_monitor (example_settings 5)))
    = (Ok s, run sample_calls (new_monitor (example_settings 5))) /\
    total_incidents s
    = length (recent_incidents 90002000000 24
                (run sample_calls (new_monitor (example_settings 5)))).
Proof.
  destruct (summary_windowing_and_structure 90002000000 24
              (run sample_calls (new_monitor (example_settings 5))))
    as [Hreturns _]; [by vm_compute|].
  destruct Hreturns as (s & Hrun & _ & _ & Htotal & _); [by vm_compute|].
  exists s. split; assumption.
Defined.

(** ** Severity of recorded incidents *)

Lemma assess_recorded_severity numpy now exceeded input req :
  Forall (fun inc => inc_severity inc = medium \/ inc_severity inc = high)
    (recorded (assess numpy now exceeded input) req).
Proof.
  unfold recorded.
  destruct (threats_detected (assess numpy now exceeded input)) eqn:Hthreats; [constructor|].
  constructor; [|constructor]. simpl.
  assert (Hsev : ta_severity (assess numpy now exceeded input) <> low).
  { apply assess_severity. by rewrite Hthreats. }
  destruct (ta_severity (assess numpy now exceeded input)); [done|by left|by right].
Qed.

(** Every incident of a reachable log is [medium] or [high]. *)
Lemma reachable_log_severity st :
  reachable st ->
  Forall (fun inc => inc_severity inc = medium \/ inc_severity inc = high) (incident_log st).
Proof.
  induction 1 as [basicConfig today name settings logging_path st Hinit
                 | st c _ IH | st now hours _ IH].
  - unfold __init__ in Hinit. destruct (basicConfig _); [discriminate|].
    injection Hinit as <-. constructor.
  - unfold call_detect. destruct (configured_limit st) as [limit|e] eqn:Hlimit.
    + destruct (detect_threat_returns (call_numpy c) (call_transport c) (call_now c) (call_time c)
                  (call_request c) st limit Hlimit) as (st' & Hrun & _ & _ & Hlog & _).
      rewrite Hrun. simpl. rewrite Hlog.
      apply Forall_app. split; [exact IH|apply assess_recorded_severity].
    + by rewrite (detect_threat_raises _ _ _ _ _ _ e Hlimit).
  - by rewrite get_incident_summary_state.
Qed.

(** Each logged incident of a reachable state has left a trace of its alert
    attempt. *)
Lemma reachable_alert_traces st :
  reachable st -> (length (incident_log st) <= alert_traces st)%nat.
Proof.
  induction 1 as [basicConfig today name settings logging_path st Hinit
                 | st c _ IH | st now hours _ IH].
  - unfold __init__ in Hinit. destruct (basicConfig _); [discriminate|].
    injection Hinit as <-. unfold alert_traces, send_failures. simpl. lia.
  - pose proof (detect_threat_traces (call_numpy c) (call_transport c) (call_now c) (call_time c)
                  (call_request c) st) as Hstep.
    unfold call_detect. simpl in Hstep. lia.
  - by rewrite get_incident_summary_state.
Qed.

(** C9: on a monitor that was constructed and then used through its methods,
    every logged incident is [medium] or [high], so the [low] count of every
    summary is 0; whenever a call records an incident, [_send_alert] is run on
    it, in a state whose log already ends with it; and the delivered messages
    and logged send failures are at least as many as the logged incidents. *)
Theorem recorded_incidents_never_low (st : monitor) :
  reachable st ->
  Forall (fun inc => inc_severity inc = medium \/ inc_severity inc = high) (incident_log st) /\
  (forall now hours s,
     fst (get_incident_summary now hours st) = Ok s ->
     forall n, In (low, n) (by_severity s) <-> n = 0%nat) /\
  (length (incident_log st) <= length (alert_sink st) + send_failures st)%nat /\
  (forall c,
     match call_detect c st with
     | (Ok ta, st') =>
         threats_detected ta <> [] ->
         ta_severity ta <> low /\
         exists st1,
           incident_log st1 = incident_log st ++ [incident_of ta (call_request c)] /\
           _send_alert (call_transport c) (incident_of ta (call_request c)) st1 = (Ok tt, st')
     | (Raise _, st') => incident_log st' = incident_log st
     end).
Proof.
  intros Hreach. pose proof (reachable_log_severity st Hreach) as Hlog.
  split; [exact Hlog|]. split; [|split; [exact (reachable_alert_traces st Hreach)|]].
  - intros now hours s Hs n. apply get_incident_summary_inv in Hs. subst s. simpl.
    assert (Hnone : with_severity low (recent_incidents now hours st) = []).
    { unfold with_severity, recent_incidents.
      induction Hlog as [|inc l Hinc _ IH]; simpl; [reflexivity|].
      destruct (_ <? _); simpl; [|exact IH].
      rewrite bool_decide_eq_false_2; [exact IH|]. destruct Hinc; congruence. }
    rewrite Hnone. simpl.
    split; [|intros ->; by left].
    intros [[= <-]|[[=]|[[=]|[]]]]. reflexivity.
  - intros c. unfold call_detect.
    destruct (configured_limit st) as [limit|e] eqn:Hlimit.
    + destruct (detect_threat_returns (call_numpy c) (call_transport c) (call_now c) (call_time c)
                  (call_request c) st limit Hlimit) as (st' & Hrun & _).
      rewrite Hrun. intros Hthreats. split; [by apply assess_severity|].
      destruct (detect_threat_sends (call_numpy c) (call_transport c) (call_now c) (call_time c)
                  (call_request c) st limit Hlimit Hthreats)
        as (st1 & st2 & Hrun2 & Hlog1 & _ & Hsend).
      rewrite Hrun in Hrun2. injection Hrun2 as <-. by exists st1.
    + by rewrite (detect_threat_raises _ _ _ _ _ _ e Hlimit).
Qed.

Lemma recorded_incidents_never_low_witness :
  Forall (fun inc => inc_severity inc = medium \/ inc_severity inc = high)
    (incident_log (snd (call_detect (alarm_call "10.0.0.1" 0)
                          (new_monitor (example_settings 5))))).
Proof.
  apply (recorded_incidents_never_low
           (snd (call_detect (alarm_call "10.0.0.1" 0) (new_monitor (example_settings 5))))).
  apply reachable_detect_threat.
  apply (reachable_init logging_ok "20240101" "clf" (example_settings 5) None).
  reflexivity.
Defined.

(** A summary over the last 24 hours, a second after the last of the sample
    calls: the alarm of the day before is left out, the clean request never
    was in the log. *)
Example sample_summary :
  fst (get_incident_summary 90002000000 24 (run sample_calls (new_monitor (example_settings 5))))
  = Ok {| total_incidents := 2;
          by_severity := [(low, 0%nat); (medium, 0%nat); (high, 2%nat)];
          unique_ips := 1;
          most_common_threats := [("extreme_values", 1%nat); ("analysis_error", 1%nat)] |}.
Proof. vm_compute. reflexivity. Qed.

(** * Further properties *)

(** ** The request history *)

Lemma list_filter_sublist {A} (f : A -> bool) (l : list A) : sublist (List.filter f l) l.
Proof.
  induction l as [|x l IH]; simpl; [constructor|].
  destruct (f x); by constructor.
Qed.

(** What a call leaves in the request history, whether it returns or raises. *)
Lemma detect_threat_history numpy tr now current_time req st :
  request_history (snd (detect_threat numpy tr now current_time req st)) =
    <[ip_address req :=
        recent_requests_of st (ip_address req) current_time ++ [current_time]]>
      (request_history st).
Proof.
  destruct (configured_limit st) as [limit|e] eqn:Hlimit.
  - destruct (detect_threat_returns numpy tr now current_time req st limit Hlimit)
      as (st' & Hrun & _ & _ & _ & Hh).
    rewrite Hrun. exact Hh.
  - by rewrite (detect_threat_raises _ _ _ _ _ _ e Hlimit).
Qed.

(** X1: after a call, whether it returned or raised, the history of its
    source is exactly the old entries less than sixty seconds older than the
    instant of the call, each as often as it was there and in the old order,
    followed by that instant. *)
Theorem history_pruned_to_last_minute
  (numpy : numpy_release) (tr : smtp_transport) (now current_time : instant) (req : request_data) (st : monitor) :
  request_history (snd (detect_threat numpy tr now current_time req st)) !! ip_address req
  = Some (List.filter (fun e => current_time - e <? 60000000)
            (default [] (request_history st !! ip_address req))
          ++ [current_time]).
Proof. by rewrite detect_threat_history, lookup_insert_eq. Qed.

(** Of the entries 0 s and 1 s, a call at 60.5 s keeps the second. *)
Example history_pruned_at_sixty_seconds :
  request_history
    (snd (detect_threat numpy_before_2_3 working_transport 60500000 60500000
            (request_from "10.0.0.1" clean_input) seen_monitor)) !! "10.0.0.1"
  = Some [1000000; 60500000].
Proof. vm_compute. reflexivity. Qed.

(** X2: a call from one source leaves the history of every other source as
    it was, so the verdict of a later rate check of another source does not
    depend on it. *)
Theorem other_sources_untouched
  (numpy : numpy_release) (tr : smtp_transport) (now current_time : instant) (req : request_data)
  (st : monitor) (src : string) :
  ip_address req <> src ->
  request_history (snd (detect_threat numpy tr now current_time req st)) !! src
    = request_history st !! src /\
  forall later,
    fst (_check_rate_limit later src (snd (detect_threat numpy tr now current_time req st)))
    = fst (_check_rate_limit later src st).
Proof.
  intros Hne.
  assert (Hh : request_history (snd (detect_threat numpy tr now current_time req st)) !! src
               = request_history st !! src).
  { by rewrite detect_threat_history, lookup_insert_ne. }
  split; [exact Hh|]. intros later. rewrite !_check_rate_limit_run. simpl.
  unfold recent_requests_of. rewrite Hh.
  assert (Hs : alert_settings (snd (detect_threat numpy tr now current_time req st))
               = alert_settings st).
  { pose proof (call_detect_history
                  {| call_numpy := numpy; call_transport := tr; call_now := now;
                     call_time := current_time; call_request := req |} st src)
      as [Hs _]. exact Hs. }
  by rewrite (configured_limit_settings _ _ Hs).
Qed.

Lemma other_sources_untouched_witness :
  request_history
    (snd (detect_threat numpy_before_2_3 working_transport 0 0 (request_from "10.0.0.1" clean_input)
            (run [alarm_call "10.0.0.2" 0] (new_monitor (example_settings 5))))) !! "10.0.0.2"
  = request_history (run [alarm_call "10.0.0.2" 0] (new_monitor (example_settings 5)))
      !! "10.0.0.2".
Proof.
  apply (other_sources_untouched numpy_before_2_3 working_transport 0 0
           (request_from "10.0.0.1" clean_input)
           (run [alarm_call "10.0.0.2" 0] (new_monitor (example_settings 5))) "10.0.0.2").
  simpl. discriminate.
Defined.

(** X3: on a monitor whose settings lack the threshold, a call raises the
    [KeyError] only after the request has been entered in the history of its
    source; the incident log and both sinks are left as they were. *)
Theorem missing_threshold_still_records_request
  (numpy : numpy_release) (tr : smtp_transport) (now current_time : instant) (req : request_data)
  (st : monitor) (e : exn) :
  configured_limit st = Raise e ->
  exists st',
    detect_threat numpy tr now current_time req st = (Raise e, st') /\
    (exists key, e = KeyError key) /\
    request_history st' !! ip_address req
      = Some (recent_requests_of st (ip_address req) current_time ++ [current_time]) /\
    incident_log st' = incident_log st /\
    log_records st' = log_records st /\
    alert_sink st' = alert_sink st.
Proof.
  intros Hlimit. rewrite (detect_threat_raises _ _ _ _ _ _ e Hlimit).
  eexists. split; [reflexivity|]. split.
  { unfold configured_limit in Hlimit.
    destruct (alert_thresholds _) as [thresholds|]; [|injection Hlimit as <-; by eexists].
    destruct (max_requests_per_minute _); [discriminate|injection Hlimit as <-; by eexists]. }
  simpl. by rewrite lookup_insert_eq.
Qed.

Lemma missing_threshold_still_records_request_witness :
  exists st',
    detect_threat numpy_before_2_3 working_transport 0 7 (request_from "10.0.0.1" extreme_input)
      (new_monitor settings_without_thresholds) = (Raise (KeyError "alert_thresholds"), st') /\
    request_history st' !! "10.0.0.1" = Some [7] /\
    incident_log st' = [].
Proof.
  destruct (missing_threshold_still_records_request numpy_before_2_3 working_transport 0 7
              (request_from "10.0.0.1" extreme_input)
              (new_monitor settings_without_thresholds)
              (KeyError "alert_thresholds") eq_refl)
    as (st' & Hrun & _ & Hh & Hlog & _).
  exists st'. split; [exact Hrun|]. split; [|exact Hlog].
  change (ip_address (request_from "10.0.0.1" extreme_input)) with "10.0.0.1" in Hh.
  rewrite Hh. vm_compute. reflexivity.
Defined.

(** X4: when every entry of the source is sixty seconds old or older at the
    rate check (in particular when the source was never seen), the entries do
    not count: the history restarts with the instant of the call alone, and
    the call is labelled [rate_limit_exceeded] only under a negative
    threshold. *)
Theorem expired_history_does_not_count
  (numpy : numpy_release) (tr : smtp_transport) (now current_time : instant) (req : request_data)
  (st : monitor) (limit : Z) :
  configured_limit st = Ok limit ->
  Forall (fun e => 60000000 <= current_time - e)
    (default [] (request_history st !! ip_address req)) ->
  exists ta st',
    detect_threat numpy tr now current_time req st = (Ok ta, st') /\
    request_history st' !! ip_address req = Some [current_time] /\
    (In "rate_limit_exceeded" (threats_detected ta) <-> limit < 0).
Proof.
  intros Hlimit Hold.
  assert (Hrecent : recent_requests_of st (ip_address req) current_time = []).
  { unfold recent_requests_of. induction Hold as [|e l He _ IH]; simpl; [reflexivity|].
    rewrite IH. destruct (Z.ltb_spec (current_time - e) (timedelta_minutes 1));
      [unfold timedelta_minutes in *; lia|reflexivity]. }
  destruct (detect_threat_returns numpy tr now current_time req st limit Hlimit)
    as (st' & Hrun & _ & _ & _ & Hh).
  eexists _, st'. split; [exact Hrun|]. split.
  - by rewrite Hh, lookup_insert_eq, Hrecent.
  - rewrite assess_flags_rate. unfold rate_exceeded. rewrite Hrecent. simpl.
    apply Z.ltb_lt.
Qed.

Lemma expired_history_does_not_count_witness :
  exists ta st',
    detect_threat numpy_before_2_3 working_transport 61000000 61000000 (request_from "10.0.0.1" clean_input)
      seen_monitor = (Ok ta, st') /\
    request_history st' !! "10.0.0.1" = Some [61000000] /\
    (In "rate_limit_exceeded" (threats_detected ta) <-> 0 < 0).
Proof.
  apply (expired_history_does_not_count numpy_before_2_3 working_transport 61000000 61000000
           (request_from "10.0.0.1" clean_input) seen_monitor 0).
  - reflexivity.
  - simpl. rewrite lookup_singleton_eq. simpl. repeat constructor; discriminate.
Defined.

(** X5: under a negative threshold every call is labelled
    [rate_limit_exceeded], rated above [low] and recorded. *)
Theorem negative_threshold_flags_every_call
  (numpy : numpy_release) (tr : smtp_transport) (now current_time : instant) (req : request_data)
  (st : monitor) (limit : Z) :
  configured_limit st = Ok limit ->
  limit < 0 ->
  exists ta st',
    detect_threat numpy tr now current_time req st = (Ok ta, st') /\
    hd_error (threats_detected ta) = Some "rate_limit_exceeded" /\
    ta_severity ta <> low /\
    incident_log st' = incident_log st ++ [incident_of ta req].
Proof.
  intros Hlimit Hneg.
  destruct (detect_threat_returns numpy tr now current_time req st limit Hlimit)
    as (st' & Hrun & _ & _ & Hlog & _).
  set (ta := assess _ _ _ _) in *.
  assert (Hexceeded : rate_exceeded limit st (ip_address req) current_time = true).
  { unfold rate_exceeded. apply Z.ltb_lt. lia. }
  assert (Hthreats : threats_detected ta = "rate_limit_exceeded" :: analysis_labels numpy (input_data req)).
  { unfold ta. by rewrite assess_threats, Hexceeded. }
  exists ta, st'. split; [exact Hrun|]. split; [by rewrite Hthreats|]. split.
  - apply assess_severity. fold ta. by rewrite Hthreats.
  - rewrite Hlog. unfold recorded. by rewrite Hthreats.
Qed.

Lemma negative_threshold_flags_every_call_witness :
  exists ta st',
    detect_threat numpy_before_2_3 working_transport 0 0 (request_from "10.0.0.1" clean_input)
      (new_monitor (example_settings (-1))) = (Ok ta, st') /\
    hd_error (threats_detected ta) = Some "rate_limit_exceeded" /\
    ta_severity ta <> low /\
    incident_log st' =
      incident_log (new_monitor (example_settings (-1)))
        ++ [incident_of ta (request_from "10.0.0.1" clean_input)].
Proof.
  apply (negative_threshold_flags_every_call numpy_before_2_3 working_transport 0 0
           (request_from "10.0.0.1" clean_input) (new_monitor (example_settings (-1))) (-1)).
  - reflexivity.
  - reflexivity.
Defined.

(** ** Labels *)

Lemma analysis_checks_raise_sublist numpy input e suspicious :
  analysis_checks numpy input [] = (Raise e, suspicious) ->
  sublist suspicious ["extreme_values"; "suspicious_sparsity"].
Proof.
  unfold analysis_checks, append_pattern. unfold_monad.
  repeat (break_match; simpl); intros; simplify_eq; simpl;
    repeat first [apply sublist_nil | apply sublist_skip; solve [repeat constructor]
                 | apply sublist_cons | apply sublist_skip].
Qed.

(** The labels of the analysis come in the order of the checks, with
    [analysis_error] last and never after [potential_adversarial_pattern]. *)
Lemma analysis_labels_order numpy input :
  sublist (analysis_labels numpy input)
    ["extreme_values"; "suspicious_sparsity"; "potential_adversarial_pattern";
     "analysis_error"] /\
  ~ (In "potential_adversarial_pattern" (analysis_labels numpy input) /\
     In "analysis_error" (analysis_labels numpy input)).
Proof.
  unfold analysis_labels.
  destruct (analysis_checks numpy input []) as [[[]|e] suspicious] eqn:Hrun.
  - apply analysis_checks_sublist in Hrun. split.
    + etransitivity; [exact Hrun|]. unfold pattern_labels.
      do 3 apply sublist_skip. apply sublist_cons. constructor.
    + intros [_ Hin]. apply list_elem_of_In in Hin.
      eapply elem_of_sublist in Hin; [|exact Hrun].
      apply list_elem_of_In in Hin. unfold pattern_labels in Hin. simpl in Hin.
      intuition discriminate.
  - apply analysis_checks_raise_sublist in Hrun. split.
    + apply (sublist_app suspicious ["extreme_values"; "suspicious_sparsity"]
               ["analysis_error"] ["potential_adversarial_pattern"; "analysis_error"]);
        [exact Hrun|].
      apply sublist_cons. apply sublist_skip. constructor.
    + intros [Hin _]. apply in_app_iff in Hin as [Hin|Hin].
      * apply list_elem_of_In in Hin. eapply elem_of_sublist in Hin; [|exact Hrun].
        apply list_elem_of_In in Hin. simpl in Hin. intuition discriminate.
      * simpl in Hin. intuition discriminate.
Qed.

(** The labels of a returned assessment: distinct and in detection order. *)
Lemma assessment_labels_order
  (numpy : numpy_release) (tr : smtp_transport) (now current_time : instant) (req : request_data) (st : monitor) :
  match detect_threat numpy tr now current_time req st with
  | (Ok ta, _) =>
      sublist (threats_detected ta) all_labels /\
      List.NoDup (threats_detected ta) /\
      ~ (In "potential_adversarial_pattern" (threats_detected ta) /\
         In "analysis_error" (threats_detected ta))
  | (Raise _, _) => True
  end.
Proof.
  destruct (configured_limit st) as [limit|e] eqn:Hlimit;
    [|by rewrite (detect_threat_raises _ _ _ _ _ _ e Hlimit)].
  destruct (detect_threat_returns numpy tr now current_time req st limit Hlimit)
    as (st' & -> & _).
  rewrite assess_threats.
  destruct (analysis_labels_order numpy (input_data req)) as [Hsub Hexcl].
  assert (Hall : sublist
            ((if rate_exceeded limit st (ip_address req) current_time
              then ["rate_limit_exceeded"] else []) ++ analysis_labels numpy (input_data req))
            all_labels).
  { unfold all_labels. destruct (rate_exceeded _ _ _ _); simpl.
    - by apply sublist_skip.
    - by apply sublist_cons. }
  split; [exact Hall|]. split.
  - apply NoDup_ListNoDup. eapply sublist_NoDup; [|exact Hall].
    unfold all_labels. apply NoDup_ListNoDup.
    repeat (constructor; [simpl; intuition discriminate|]). constructor.
  - rewrite !in_app_iff. intros [[Hrate|Hpattern] [Hrate'|Herror]].
    + destruct (rate_exceeded _ _ _ _); simpl in Hrate; intuition discriminate.
    + destruct (rate_exceeded _ _ _ _); simpl in Hrate; intuition discriminate.
    + destruct (rate_exceeded _ _ _ _); simpl in Hrate'; intuition discriminate.
    + by apply Hexcl.
Qed.

(** X6: the labels of a returned assessment are distinct and come in the
    order in which the rules emit them: [rate_limit_exceeded], then
    [extreme_values], [suspicious_sparsity], and last either
    [potential_adversarial_pattern] or [analysis_error], never both. *)
Theorem labels_in_detection_order
  (numpy : numpy_release) (tr : smtp_transport) (now current_time : instant) (req : request_data) (st : monitor) :
  match detect_threat numpy tr now current_time req st with
  | (Ok ta, _) =>
      sublist (threats_detected ta) all_labels /\
      List.NoDup (threats_detected ta) /\
      ~ (In "potential_adversarial_pattern" (threats_detected ta) /\
         In "analysis_error" (threats_detected ta))
  | (Raise _, _) => True
  end.
Proof. apply assessment_labels_order. Qed.

(** X7: a returned assessment is [low] exactly when it has no label,
    [medium] exactly when its only label is [rate_limit_exceeded], and [high]
    exactly when it has a label other than [rate_limit_exceeded]. *)
Theorem severity_read_off_labels
  (numpy : numpy_release) (tr : smtp_transport) (now current_time : instant) (req : request_data) (st : monitor) :
  match detect_threat numpy tr now current_time req st with
  | (Ok ta, _) =>
      (ta_severity ta = low <-> threats_detected ta = []) /\
      (ta_severity ta = medium <-> threats_detected ta = ["rate_limit_exceeded"]) /\
      (ta_severity ta = high <->
         exists label, In label (threats_detected ta) /\ label <> "rate_limit_exceeded")
  | (Raise _, _) => True
  end.
Proof.
  destruct (configured_limit st) as [limit|e] eqn:Hlimit;
    [|by rewrite (detect_threat_raises _ _ _ _ _ _ e Hlimit)].
  destruct (detect_threat_returns numpy tr now current_time req st limit Hlimit)
    as (st' & -> & _).
  rewrite assess_threats.
  pose proof (analysis_labels_not_rate numpy (input_data req)) as Hnot.
  unfold assess, pattern_rule, analysis_result, rate_rule, initial_assessment. simpl.
  destruct (analysis_labels numpy (input_data req)) as [|label labels] eqn:Hlabels,
    (rate_exceeded limit st (ip_address req) current_time); simpl.
  - split; [split; intros; simplify_eq|]. split; [done|]. split; [discriminate|].
    intros (l & [Hl|[]] & Hne). congruence.
  - split; [done|]. split; [split; intros; simplify_eq|]. split; [discriminate|].
    by intros (l & [] & _).
  - split; [split; intros; simplify_eq|]. split; [split; intros; simplify_eq|]. split; [|done].
    intros _. exists label. split; [tauto|]. intros ->. apply Hnot. by left.
  - split; [split; intros; simplify_eq|]. split.
    { split; [discriminate|]. intros [= -> ->]. destruct Hnot. by left. }
    split; [|done].
    intros _. exists label. split; [by left|]. intros ->. apply Hnot. by left.
Qed.

(** ** The pattern checks, one by one *)

(** Case analysis on an innermost scrutinee of a hypothesis. *)
Ltac break_match_in H :=
  match type of H with
  | context [match ?x with _ => _ end] =>
      lazymatch x with
      | context [match _ with _ => _ end] => fail
      | _ => destruct x eqn:?
      end
  end.

(** The labels for an input coerced to a numeric array, check by check. *)
Lemma analysis_labels_numeric numpy input shape data :
  np_asarray input = Ok (Float64Array shape data) ->
  analysis_labels numpy input =
    (if np_any (np_greater (np_abs data) 1e6%float) then ["extreme_values"] else []) ++
    match count_over_size numpy (np_count_nonzero data) (prod_shape shape) with
    | Raise _ => ["analysis_error"]
    | Ok sparsity =>
        (if PrimFloat.ltb sparsity 0.01%float then ["suspicious_sparsity"] else []) ++
        if Nat.ltb 1 (length shape) then
          match np_gradient shape data with
          | Raise _ => ["analysis_error"]
          | Ok gradient =>
              if np_all (np_greater (np_abs (concat gradient)) 100%float)
              then ["potential_adversarial_pattern"] else []
          end
        else []
    end.
Proof.
  intros Harray. unfold analysis_labels, analysis_checks, append_pattern.
  unfold bind at 1. unfold lift at 1. rewrite Harray. cbv beta iota.
  unfold_monad. repeat (break_match; simpl); simplify_eq; reflexivity.
Qed.

(** The labels for an input that is not coerced to a numeric array. *)
Lemma analysis_labels_not_numeric numpy input :
  (forall shape data, np_asarray input <> Ok (Float64Array shape data)) ->
  analysis_labels numpy input = ["analysis_error"].
Proof.
  intros Hnot. unfold analysis_labels, analysis_checks. unfold_monad.
  destruct (np_asarray input) as [[shape data|shape]|e] eqn:Harray; try reflexivity.
  by destruct (Hnot shape data).
Qed.

Lemma np_any_greater_abs data c :
  np_any (np_greater (np_abs data) c) = true <->
  exists x, In x data /\ PrimFloat.ltb c (PrimFloat.abs x) = true.
Proof.
  unfold np_any, np_greater, np_abs. rewrite existsb_exists. split.
  - intros (b & Hin & ->). apply in_map_iff in Hin as (y & Hy & Hin).
    apply in_map_iff in Hin as (x & <- & Hin). by exists x.
  - intros (x & Hin & Hx). exists true. split; [|reflexivity].
    apply in_map_iff. exists (PrimFloat.abs x). split; [exact Hx|].
    apply in_map_iff. by exists x.
Qed.

Lemma np_all_greater_abs data c :
  np_all (np_greater (np_abs data) c) = true <->
  forall x, In x data -> PrimFloat.ltb c (PrimFloat.abs x) = true.
Proof.
  unfold np_all, np_greater, np_abs. rewrite forallb_forall. split.
  - intros Hall x Hin. apply Hall. apply in_map_iff. exists (PrimFloat.abs x).
    split; [reflexivity|]. apply in_map_iff. by exists x.
  - intros Hall b Hin. apply in_map_iff in Hin as (y & <- & Hin).
    apply in_map_iff in Hin as (x & <- & Hin). by apply Hall.
Qed.

(** [np.gradient] raises exactly when an axis is shorter than two. *)
Lemma np_gradient_raises shape data :
  (exists e, np_gradient shape data = Raise e) <-> exists n, In n shape /\ (n < 2)%nat.
Proof.
  unfold np_gradient. destruct (forallb _ shape) eqn:Hall.
  - split; [by intros [e [=]]|]. intros (n & Hin & Hn).
    rewrite forallb_forall in Hall. apply Hall in Hin. apply Nat.leb_le in Hin. lia.
  - split; [|by eexists]. intros _.
    assert (Hex : existsb (fun n => negb (Nat.leb 2 n)) shape = true).
    { clear data. induction shape as [|n shape IH]; [discriminate|].
      cbn [forallb existsb] in *. destruct (Nat.leb 2 n); [by apply IH|reflexivity]. }
    apply existsb_exists in Hex as (n & Hin & Hn). exists n. split; [exact Hin|].
    apply negb_true_iff, Nat.leb_gt in Hn. lia.
Qed.

(** A value above 1,000,000 is its own absolute value. *)
Lemma above_million_abs x :
  PrimFloat.ltb 1e6%float x = true -> PrimFloat.ltb 1e6%float (PrimFloat.abs x) = true.
Proof.
  rewrite !FloatAxioms.ltb_spec, FloatAxioms.abs_spec.
  destruct (Prim2SF x) as [s|s| |s m e]; try (intros H; vm_compute in H; discriminate).
  - destruct s; [intros H; vm_compute in H; discriminate|]. by intros.
  - destruct s; [|by intros]. intros H. exfalso. revert H.
    set (c := Prim2SF 1e6%float). vm_compute in c. subst c.
    unfold SFltb, SFcompare. discriminate.
Qed.

(** X8: [extreme_values] is reported only for an input that is coerced to a
    numeric array holding an element whose absolute value is above 1,000,000,
    and it is then the first pattern label; it is reported whenever the array
    holds an element above 1,000,000, and an empty array, a failing gradient
    or any later check does not take the label away. *)
Theorem extreme_values_only_for_extreme_elements
  (numpy : numpy_release) (input : py_value) :
  (In "extreme_values" (analysis_labels numpy input) ->
   hd_error (analysis_labels numpy input) = Some "extreme_values" /\
   exists shape data,
     np_asarray input = Ok (Float64Array shape data) /\
     exists x, In x data /\ PrimFloat.ltb 1e6%float (PrimFloat.abs x) = true) /\
  (forall shape data x,
     np_asarray input = Ok (Float64Array shape data) ->
     In x data -> PrimFloat.ltb 1e6%float x = true ->
     In "extreme_values" (analysis_labels numpy input)).
Proof.
  split.
  - intros Hin.
    destruct (np_asarray input) as [[shape data|shape]|e] eqn:Harray.
    + rewrite (analysis_labels_numeric _ _ _ _ Harray) in *.
      destruct (np_any (np_greater (np_abs data) 1e6%float)) eqn:Hany.
      * split; [reflexivity|]. exists shape, data. split; [reflexivity|].
        by apply np_any_greater_abs.
      * exfalso. simpl in Hin.
        repeat (break_match_in Hin; simpl in Hin); simpl in Hin; intuition discriminate.
    + rewrite analysis_labels_not_numeric in Hin by (intros ? ?; congruence).
      simpl in Hin. intuition discriminate.
    + rewrite analysis_labels_not_numeric in Hin by (intros ? ?; congruence).
      simpl in Hin. intuition discriminate.
  - intros shape data x Harray Hx Habove.
    assert (Hany : np_any (np_greater (np_abs data) 1e6%float) = true).
    { apply np_any_greater_abs. exists x. split; [exact Hx|]. by apply above_million_abs. }
    rewrite (analysis_labels_numeric _ _ _ _ Harray), Hany. by left.
Qed.

Lemma extreme_values_only_for_extreme_elements_witness :
  hd_error (analysis_labels numpy_from_2_3 extreme_row) = Some "extreme_values" /\
  exists shape data,
    np_asarray extreme_row = Ok (Float64Array shape data) /\
    exists x, In x data /\ PrimFloat.ltb 1e6%float (PrimFloat.abs x) = true.
Proof.
  apply (proj1 (extreme_values_only_for_extreme_elements numpy_from_2_3 extreme_row)).
  vm_compute. by left.
Defined.

(** An array of two or more dimensions reports [analysis_error] from the
    gradient step exactly when one of its axes is shorter than two. *)
Lemma gradient_step_error shape data :
  In "analysis_error"
    (if Nat.ltb 1 (length shape) then
       match np_gradient shape data with
       | Raise _ => ["analysis_error"]
       | Ok gradient =>
           if np_all (np_greater (np_abs (concat gradient)) 100%float)
           then ["potential_adversarial_pattern"] else []
       end
     else []) <->
  (1 < length shape)%nat /\ exists n, In n shape /\ (n < 2)%nat.
Proof.
  destruct (Nat.ltb_spec 1 (length shape)) as [Hdim|Hdim].
  - destruct (np_gradient shape data) as [gradient|e] eqn:Hgradient.
    + split.
      * intros Hin. destruct (np_all _); simpl in Hin; intuition discriminate.
      * intros [_ Hshort].
        apply (np_gradient_raises shape data) in Hshort as [e He]. congruence.
    + split; [|intros _; by left].
      intros _. split; [exact Hdim|]. apply (np_gradient_raises shape data). by exists e.
  - split; [intros []|]. intros [? _]. lia.
Qed.

(** X9: the analysis fails, and reports [analysis_error], exactly when the
    input is ragged, or holds a string, or is an array of two or more
    dimensions with an axis shorter than two, or, where [np.count_nonzero]
    returns a Python integer (NumPy before 2.3), is an array of size zero. *)
Theorem analysis_error_iff (numpy : numpy_release) (input : py_value) :
  In "analysis_error" (analysis_labels numpy input) <->
  match np_asarray input with
  | Raise _ => True
  | Ok (UnicodeArray _) => True
  | Ok (Float64Array shape data) =>
      (numpy = numpy_before_2_3 /\ prod_shape shape = 0%nat) \/
      ((1 < length shape)%nat /\ exists n, In n shape /\ (n < 2)%nat)
  end.
Proof.
  destruct (np_asarray input) as [[shape data|shape]|e] eqn:Harray.
  - rewrite (analysis_labels_numeric _ _ _ _ Harray).
    pose proof (gradient_step_error shape data) as Hgradient.
    assert (Hextreme : forall b : bool,
               ~ In "analysis_error" (if b then ["extreme_values"] else [])).
    { intros []; simpl; intuition discriminate. }
    assert (Hsparse : forall b : bool,
               ~ In "analysis_error" (if b then ["suspicious_sparsity"] else [])).
    { intros []; simpl; intuition discriminate. }
    unfold count_over_size, py_truediv.
    destruct numpy; [destruct (Nat.eqb_spec (prod_shape shape) 0) as [Hzero|Hsize]|].
    + split; [by left|]. intros _. apply in_app_iff. right. by left.
    + rewrite !in_app_iff, Hgradient. split.
      * intros [Hin|[Hin|Hin]]; [by apply Hextreme in Hin|by apply Hsparse in Hin|by right].
      * intros [[_ ?]|Hin]; [done|]. right. by right.
    + rewrite !in_app_iff, Hgradient. split.
      * intros [Hin|[Hin|Hin]]; [by apply Hextreme in Hin|by apply Hsparse in Hin|by right].
      * intros [[? _]|Hin]; [done|]. right. by right.
  - rewrite analysis_labels_not_numeric by (intros ? ?; congruence).
    split; [done|]. intros _. by left.
  - rewrite analysis_labels_not_numeric by (intros ? ?; congruence).
    split; [done|]. intros _. by left.
Qed.

(** X10: [potential_adversarial_pattern] is reported exactly for an array of
    two or more dimensions, each axis at least two long, all of whose gradient
    elements, along every axis, exceed 100 in absolute value. *)
Theorem adversarial_pattern_iff (numpy : numpy_release) (input : py_value) :
  In "potential_adversarial_pattern" (analysis_labels numpy input) <->
  exists shape data gradient,
    np_asarray input = Ok (Float64Array shape data) /\
    (1 < length shape)%nat /\
    Forall (fun n => (2 <= n)%nat) shape /\
    np_gradient shape data = Ok gradient /\
    forall x, In x (concat gradient) -> PrimFloat.ltb 100%float (PrimFloat.abs x) = true.
Proof.
  split.
  - intros Hin.
    destruct (np_asarray input) as [[shape data|shape]|e] eqn:Harray.
    + rewrite (analysis_labels_numeric _ _ _ _ Harray) in Hin.
      destruct (Nat.ltb_spec 1 (length shape)) as [Hdim|Hdim];
        [|repeat (break_match_in Hin; simpl in Hin); simpl in Hin; intuition discriminate].
      destruct (np_gradient shape data) as [gradient|e] eqn:Hgradient;
        [|repeat (break_match_in Hin; simpl in Hin); simpl in Hin; intuition discriminate].
      destruct (np_all (np_greater (np_abs (concat gradient)) 100%float)) eqn:Hall;
        [|repeat (break_match_in Hin; simpl in Hin); simpl in Hin; intuition discriminate].
      exists shape, data, gradient. split; [reflexivity|]. split; [exact Hdim|].
      split; [|split; [exact Hgradient|by apply np_all_greater_abs]].
      unfold np_gradient in Hgradient.
      destruct (forallb _ shape) eqn:Hlong; [|discriminate].
      apply List.Forall_forall. intros n Hn. rewrite forallb_forall in Hlong.
      apply Hlong in Hn. by apply Nat.leb_le.
    + rewrite analysis_labels_not_numeric in Hin by (intros ? ?; congruence).
      simpl in Hin. intuition discriminate.
    + rewrite analysis_labels_not_numeric in Hin by (intros ? ?; congruence).
      simpl in Hin. intuition discriminate.
  - intros (shape & data & gradient & Harray & Hdim & Hlong & Hgradient & Hall).
    rewrite (analysis_labels_numeric _ _ _ _ Harray). unfold count_over_size, py_truediv.
    assert (Hsize : prod_shape shape <> 0%nat).
    { apply long_axes_nonempty. apply forallb_forall. intros n Hn.
      apply Nat.leb_le. revert n Hn. by apply List.Forall_forall. }
    apply Nat.eqb_neq in Hsize. apply Nat.ltb_lt in Hdim.
    apply np_all_greater_abs in Hall.
    destruct numpy; rewrite ?Hsize, Hdim, Hgradient, Hall;
      rewrite !in_app_iff; right; right; by left.
Qed.

(** ** Arithmetic of the summary *)

Lemma severity_partition incidents :
  (length (with_severity low incidents) + length (with_severity medium incidents)
   + length (with_severity high incidents))%nat = length incidents.
Proof.
  unfold with_severity. induction incidents as [|inc incidents IH]; simpl; [reflexivity|].
  destruct (inc_severity inc); simpl; lia.
Qed.

Lemma distinct_at_most_length (l : list string) :
  (size (list_to_set l : gset string) <= length l)%nat.
Proof.
  apply submseteq_length. apply NoDup_submseteq; [apply NoDup_elements|].
  intros x. by rewrite elem_of_elements, elem_of_list_to_set.
Qed.

(** X11: in every summary a call returns the three severity counts add up
    to the total, the number of distinct addresses is at most the total, and
    it is zero exactly when the total is; a call whose cutoff is a [datetime]
    returns one. *)
Theorem summary_counts_add_up (now : instant) (hours : Z) (st : monitor) :
  is_datetime now ->
  is_datetime (now - timedelta_hours hours) ->
  exists s,
    fst (get_incident_summary now hours st) = Ok s /\
    fold_right (fun item acc => (snd item + acc)%nat) 0%nat (by_severity s)
      = total_incidents s /\
    (unique_ips s <= total_incidents s)%nat /\
    (unique_ips s = 0%nat <-> total_incidents s = 0%nat).
Proof.
  intros Hnow Hcutoff. exists (summary_of (recent_incidents now hours st)).
  rewrite get_incident_summary_run, (cutoff_representable_datetime _ _ Hnow Hcutoff).
  split; [reflexivity|]. simpl.
  set (recent := recent_incidents now hours st).
  split; [pose proof (severity_partition recent); lia|]. split.
  - rewrite <- (length_map inc_ip_address recent). apply distinct_at_most_length.
  - rewrite size_empty_iff. split.
    + intros Hempty. destruct recent as [|inc recent']; [reflexivity|].
      exfalso. simpl in Hempty. set_solver.
    + intros Hzero. apply nil_length_inv in Hzero. by rewrite Hzero.
Qed.

Lemma summary_counts_add_up_witness :
  exists s,
    fst (get_incident_summary 90002000000 24
           (run sample_calls (new_monitor (example_settings 5)))) = Ok s /\
    fold_right (fun item acc => (snd item + acc)%nat) 0%nat (by_severity s)
      = total_incidents s /\
    (unique_ips s <= total_incidents s)%nat /\
    (unique_ips s = 0%nat <-> total_incidents s = 0%nat).
Proof.
  apply (summary_counts_add_up 90002000000 24
           (run sample_calls (new_monitor (example_settings 5)))).
  - by vm_compute.
  - by vm_compute.
Defined.

Lemma total_count_bump threat threat_counts :
  total_count (bump threat threat_counts) = S (total_count threat_counts).
Proof.
  unfold total_count. induction threat_counts as [|[k c] rest IH]; simpl; [reflexivity|].
  destruct (String.eqb k threat); simpl; [reflexivity|]. rewrite IH. lia.
Qed.

Lemma total_count_permutation items items' :
  Permutation items items' -> total_count items = total_count items'.
Proof.
  unfold total_count. induction 1 as [|x l l' _ IH|x y l|l l' l'' _ IH1 _ IH2];
    simpl; lia.
Qed.

Lemma total_count_common_threats (incidents : list incident) :
  total_count (_get_common_threats incidents)
    = length (concat (List.map threats incidents)).
Proof.
  unfold _get_common_threats.
  rewrite (total_count_permutation _ _ (sorted_desc_permutation _)).
  rewrite count_threats_concat.
  induction (concat (List.map threats incidents)) as [|label labels IH] using rev_ind;
    [reflexivity|].
  by rewrite fold_left_app, length_app, Nat.add_comm; simpl; rewrite total_count_bump, IH.
Qed.

(** X12: the counts of [most_common_threats] add up to the number of labels
    of the selected incidents: every label of every selected incident is
    counted exactly once. *)
Theorem label_counts_add_up (incidents : list incident) :
  total_count (_get_common_threats incidents)
    = length (concat (List.map threats incidents)).
Proof. apply total_count_common_threats. Qed.

(** X13: a longer window selects at least the incidents of a shorter one, in
    the same order, so neither the total nor the number of distinct addresses
    can drop when [hours] grows, as long as both cutoffs are [datetime]s. *)
Theorem summary_window_monotone (now : instant) (hours hours' : Z) (st : monitor) :
  hours <= hours' ->
  is_datetime now ->
  is_datetime (now - timedelta_hours hours) ->
  is_datetime (now - timedelta_hours hours') ->
  exists s s',
    fst (get_incident_summary now hours st) = Ok s /\
    fst (get_incident_summary now hours' st) = Ok s' /\
    sublist (recent_incidents now hours st) (recent_incidents now hours' st) /\
    (total_incidents s <= total_incidents s')%nat /\
    (unique_ips s <= unique_ips s')%nat.
Proof.
  intros Hle Hnow Hcutoff Hcutoff'.
  exists (summary_of (recent_incidents now hours st)),
    (summary_of (recent_incidents now hours' st)).
  rewrite !get_incident_summary_run,
    (cutoff_representable_datetime _ _ Hnow Hcutoff),
    (cutoff_representable_datetime _ _ Hnow Hcutoff').
  split; [reflexivity|]. split; [reflexivity|]. simpl.
  assert (Hsub : sublist (recent_incidents now hours st) (recent_incidents now hours' st)).
  { unfold recent_incidents, timedelta_hours.
    induction (incident_log st) as [|inc l IH]; simpl; [constructor|].
    destruct (Z.ltb_spec (now - hours * 3600000000) (inc_timestamp inc)) as [Hin|Hout].
    - destruct (Z.ltb_spec (now - hours' * 3600000000) (inc_timestamp inc)); [|lia].
      by constructor.
    - destruct (_ <? _); [by constructor|exact IH]. }
  split; [exact Hsub|]. split; [by apply sublist_length|].
  apply subseteq_size. intros ip. rewrite !elem_of_list_to_set, !list_elem_of_In, !in_map_iff.
  intros (inc & Hip & Hin). exists inc. split; [exact Hip|].
  apply list_elem_of_In. eapply elem_of_sublist; [|exact Hsub]. by apply list_elem_of_In.
Qed.

Lemma summary_window_monotone_witness :
  exists s s',
    fst (get_incident_summary 90002000000 1
           (run sample_calls (new_monitor (example_settings 5)))) = Ok s /\
    fst (get_incident_summary 90002000000 25
           (run sample_calls (new_monitor (example_settings 5)))) = Ok s' /\
    (total_incidents s <= total_incidents s')%nat /\
    (unique_ips s <= unique_ips s')%nat.
Proof.
  destruct (summary_window_monotone 90002000000 1 25
              (run sample_calls (new_monitor (example_settings 5))))
    as (s & s' & Hs & Hs' & _ & Htotal & Hips); [lia|by vm_compute..|].
  exists s, s'. repeat split; assumption.
Defined.

Lemma insert_desc_filter n item items :
  List.filter (fun it => Nat.eqb (snd it) n) (insert_desc item items)
  = List.filter (fun it => Nat.eqb (snd it) n) (item :: items).
Proof.
  induction items as [|y rest IH]; [reflexivity|].
  cbn [insert_desc]. destruct (Nat.leb_spec (snd y) (snd item)) as [Hle|Hlt]; [reflexivity|].
  cbn [List.filter] in *. rewrite IH.
  destruct (Nat.eqb_spec (snd item) n) as [Hitem|Hitem];
    destruct (Nat.eqb_spec (snd y) n) as [Hy|Hy]; try reflexivity. lia.
Qed.

Lemma first_seen_snoc labels label :
  first_seen (labels ++ [label]) =
    first_seen labels ++ (if bool_decide (label ∈ first_seen labels) then [] else [label]).
Proof.
  unfold first_seen. rewrite fold_left_app. simpl.
  destruct (bool_decide _); [by rewrite app_nil_r|reflexivity].
Qed.

(** X14: among labels of equal count [most_common_threats] keeps the order of
    the dictionary of counts, which is the order in which the labels were
    first met in the selected incidents. *)
Theorem equal_counts_keep_detection_order (incidents : list incident) :
  List.map fst (count_threats incidents)
    = first_seen (concat (List.map threats incidents)) /\
  forall n,
    List.filter (fun item => Nat.eqb (snd item) n) (_get_common_threats incidents)
    = List.filter (fun item => Nat.eqb (snd item) n) (count_threats incidents).
Proof.
  split.
  - rewrite count_threats_concat.
    induction (concat (List.map threats incidents)) as [|label labels IH] using rev_ind;
      [reflexivity|].
    rewrite fold_left_app, first_seen_snoc. simpl. by rewrite bump_keys, IH.
  - intros n. unfold _get_common_threats, sorted_desc.
    induction (count_threats incidents) as [|item items IH]; [reflexivity|].
    cbn [fold_right]. rewrite insert_desc_filter. cbn [List.filter]. by rewrite IH.
Qed.

(** ** The incident log and the two sinks *)

Lemma warned_incidents_app records records' :
  warned_incidents (records ++ records')
  = warned_incidents records ++ warned_incidents records'.
Proof.
  induction records as [|[inc|e|e] records IH]; simpl; [reflexivity| |exact IH|exact IH].
  by rewrite IH.
Qed.

(** What a run of [_send_alert] does to the sinks: no warning is logged, and
    at most one message is delivered, rendered from the incident. *)
Lemma _send_alert_effects tr inc st st' :
  _send_alert tr inc st = (Ok tt, st') ->
  warned_incidents (log_records st') = warned_incidents (log_records st) /\
  (alert_sink st' = alert_sink st \/
   exists msg, alert_sink st' = alert_sink st ++ [msg] /\ describes (model_name st) msg inc).
Proof.
  unfold _send_alert. unfold_monad.
  repeat (break_match; simpl); intros [= <-]; simpl;
    rewrite ?warned_incidents_app; simpl; rewrite ?app_nil_r;
    (split; [reflexivity|]);
    first [by left | right; eexists; split; [reflexivity|]; by repeat split].
Qed.

(** What a call does to the incident log and to the sinks, whether it returns
    or raises. *)
Lemma detect_threat_effects numpy tr now current_time req st :
  let st' := snd (detect_threat numpy tr now current_time req st) in
  exists added,
    incident_log st' = incident_log st ++ added /\
    warned_incidents (log_records st') = warned_incidents (log_records st) ++ added /\
    model_name st' = model_name st /\
    (length added <= 1)%nat /\
    (added = [] -> log_records st' = log_records st /\ alert_sink st' = alert_sink st) /\
    (alert_sink st' = alert_sink st \/
     exists msg inc,
       added = [inc] /\ alert_sink st' = alert_sink st ++ [msg] /\
       describes (model_name st) msg inc).
Proof.
  simpl. destruct (detect_threat numpy tr now current_time req st) as [r st'] eqn:Hrun.
  simpl. revert Hrun.
  destruct (configured_limit st) as [limit|e] eqn:Hlimit.
  2: { rewrite (detect_threat_raises _ _ _ _ _ _ e Hlimit). intros [= <- <-]. simpl.
       exists []. rewrite !app_nil_r.
       split; [done|]. split; [done|]. split; [done|]. split; [simpl; lia|].
       split; [done|]. by left. }
  unfold detect_threat. unfold bind at 1. rewrite _check_rate_limit_run, Hlimit.
  fold (rate_exceeded limit st (ip_address req) current_time).
  set (st0 := set_request_history _ st).
  destruct (_analyze_input_patterns_log numpy (input_data req) st0)
    as (st1 & Hrun1 & (Hn1 & _ & Hl1 & _) & Hsink1 & Hlog1).
  unfold bind at 1. rewrite Hrun1. fold (assess numpy now
    (rate_exceeded limit st (ip_address req) current_time) (input_data req)).
  set (ta := assess _ _ _ _).
  destruct (threats_detected ta) as [|label labels] eqn:Hthreats.
  - unfold bind, ret. intros [= <- <-]. exists []. rewrite !app_nil_r.
    assert (Hquiet : log_records st1 = log_records st).
    { rewrite Hlog1. unfold ta in Hthreats. rewrite assess_threats in Hthreats.
      apply app_eq_nil in Hthreats as [_ Hlabels]. unfold analysis_labels in Hlabels.
      destruct (analysis_checks numpy (input_data req) []) as [[[]|e] suspicious];
        [by rewrite app_nil_r|by destruct suspicious]. }
    split; [exact Hl1|]. split; [by rewrite Hquiet|]. split; [exact Hn1|].
    split; [simpl; lia|]. split; [by intros _|]. by left.
  - assert (Hsev : ta_severity ta <> low).
    { apply assess_severity. fold ta. by rewrite Hthreats. }
    destruct (_log_incident_run tr ta req st1) as (st2 & Hrun2 & Hsend & Hsame2).
    rewrite bool_decide_eq_false_2 in Hsend by exact Hsev.
    unfold bind at 1. rewrite Hrun2. unfold ret. intros [= <- <-].
    destruct (_send_alert_effects _ _ _ _ Hsend) as [Hwarned Hsink].
    destruct Hsame2 as (Hn2 & _ & Hl2 & _). simpl in *.
    exists [incident_of ta req].
    split; [by rewrite Hl2, Hl1|]. split.
    { rewrite Hwarned, warned_incidents_app. simpl.
      rewrite Hlog1, warned_incidents_app.
      destruct (analysis_checks numpy (input_data req) []) as [[[]|e] suspicious];
        simpl; by rewrite app_nil_r. }
    split; [by rewrite Hn2, Hn1|]. split; [simpl; lia|]. split; [discriminate|].
    destruct Hsink as [Hsame|(msg & Hmsg & Hdescribes)].
    + left. by rewrite Hsame, Hsink1.
    + right. exists msg, (incident_of ta req). split; [reflexivity|].
      split; [by rewrite Hmsg, Hsink1|]. by rewrite <- Hn1.
Qed.

(** X15: nothing is ever removed from the incident log: after any sequence
    of calls the old log is a prefix of the new one, which has grown by at
    most one incident per call. *)
Theorem incident_log_only_grows (calls : list call) (st : monitor) :
  exists added,
    incident_log (run calls st) = incident_log st ++ added /\
    (length added <= length calls)%nat.
Proof.
  induction calls as [|c calls (added & Hlog & Hlen)] using rev_ind.
  - exists []. by rewrite app_nil_r.
  - rewrite run_snoc. unfold call_detect.
    destruct (detect_threat_effects (call_numpy c) (call_transport c) (call_now c) (call_time c)
                (call_request c) (run calls st)) as (new & Hnew & _ & _ & Hone & _).
    exists (added ++ new). rewrite Hnew, Hlog, app_assoc. split; [reflexivity|].
    rewrite !length_app. simpl. lia.
Qed.

(** X16: on a monitor that was constructed and then used through its
    methods, the incidents written to the log sink at warning level are, in
    order, exactly the incidents of the incident log. *)
Theorem warnings_mirror_incident_log (st : monitor) :
  reachable st -> warned_incidents (log_records st) = incident_log st.
Proof.
  induction 1 as [basicConfig today name settings logging_path st Hinit
                 | st c _ IH | st now hours _ IH].
  - unfold __init__ in Hinit. destruct (basicConfig _); [discriminate|].
    by injection Hinit as <-.
  - unfold call_detect.
    destruct (detect_threat_effects (call_numpy c) (call_transport c) (call_now c) (call_time c)
                (call_request c) st) as (added & Hlog & Hwarned & _).
    by rewrite Hlog, Hwarned, IH.
  - by rewrite get_incident_summary_state.
Qed.

Lemma warnings_mirror_incident_log_witness :
  warned_incidents
    (log_records (snd (call_detect (alarm_call "10.0.0.1" 0)
                         (new_monitor (example_settings 5)))))
  = incident_log (snd (call_detect (alarm_call "10.0.0.1" 0)
                         (new_monitor (example_settings 5)))).
Proof.
  apply (warnings_mirror_incident_log
           (snd (call_detect (alarm_call "10.0.0.1" 0) (new_monitor (example_settings 5))))).
  apply reachable_detect_threat.
  apply (reachable_init logging_ok "20240101" "clf" (example_settings 5) None).
  reflexivity.
Defined.

Lemma reachable_model_name_effects st c :
  model_name (snd (call_detect c st)) = model_name st.
Proof.
  unfold call_detect.
  by destruct (detect_threat_effects (call_numpy c) (call_transport c) (call_now c) (call_time c)
                 (call_request c) st) as (added & _ & _ & Hname & _).
Qed.

(** X17: on a monitor that was constructed and then used through its
    methods, every message in the alert sink was rendered from an incident of
    the incident log, and there are at most as many messages as incidents: no
    alert is sent for a request that was not recorded. *)
Theorem alerts_describe_logged_incidents (st : monitor) :
  reachable st ->
  (length (alert_sink st) <= length (incident_log st))%nat /\
  Forall (fun msg => exists inc, In inc (incident_log st) /\ describes (model_name st) msg inc)
    (alert_sink st).
Proof.
  induction 1 as [basicConfig today name settings logging_path st Hinit
                 | st c _ [IHlen IHall] | st now hours _ IH].
  - unfold __init__ in Hinit. destruct (basicConfig _); [discriminate|].
    injection Hinit as <-. simpl. split; [lia|constructor].
  - rewrite reachable_model_name_effects. unfold call_detect.
    destruct (detect_threat_effects (call_numpy c) (call_transport c) (call_now c) (call_time c)
                (call_request c) st) as (added & Hlog & _ & _ & _ & _ & Hsink).
    rewrite Hlog.
    assert (Hold : Forall (fun msg => exists inc,
                             In inc (incident_log st ++ added) /\
                             describes (model_name st) msg inc) (alert_sink st)).
    { eapply Forall_impl; [exact IHall|]. intros msg (inc & Hin & Hd).
      exists inc. split; [|exact Hd]. apply in_app_iff. by left. }
    destruct Hsink as [->|(msg & inc & -> & -> & Hd)].
    + split; [rewrite length_app; lia|exact Hold].
    + split; [rewrite !length_app; simpl; lia|].
      apply Forall_app. split; [exact Hold|]. constructor; [|constructor].
      exists inc. split; [|exact Hd]. apply in_app_iff. right. by left.
  - by rewrite get_incident_summary_state.
Qed.

Lemma alerts_describe_logged_incidents_witness :
  (length (alert_sink (snd (call_detect (burst_call 0) (new_monitor (example_settings (-1))))))
   <= length (incident_log
                (snd (call_detect (burst_call 0) (new_monitor (example_settings (-1)))))))%nat.
Proof.
  apply (alerts_describe_logged_incidents
           (snd (call_detect (burst_call 0) (new_monitor (example_settings (-1)))))).
  apply reachable_detect_threat.
  apply (reachable_init logging_ok "20240101" "clf" (example_settings (-1)) None).
  reflexivity.
Defined.

(** X18: a call that returns an assessment without labels writes nothing to
    the log sink, sends nothing and records nothing; all it leaves behind is
    the entry in the request history. *)
Theorem clean_call_is_silent
  (numpy : numpy_release) (tr : smtp_transport) (now current_time : instant) (req : request_data) (st : monitor) :
  match detect_threat numpy tr now current_time req st with
  | (Ok ta, st') =>
      threats_detected ta = [] ->
      ta = initial_assessment now /\
      incident_log st' = incident_log st /\
      log_records st' = log_records st /\
      alert_sink st' = alert_sink st
  | (Raise _, _) => True
  end.
Proof.
  destruct (configured_limit st) as [limit|e] eqn:Hlimit;
    [|by rewrite (detect_threat_raises _ _ _ _ _ _ e Hlimit)].
  pose proof (detect_threat_effects numpy tr now current_time req st) as Heffects.
  destruct (detect_threat_returns numpy tr now current_time req st limit Hlimit)
    as (st' & Hrun & _ & _ & Hlog & _).
  rewrite Hrun in *. simpl in Heffects. intros Hclean.
  destruct Heffects as (added & Hadded & _ & _ & _ & Hquiet & _).
  assert (Hnone : added = []).
  { rewrite Hlog in Hadded. apply app_inv_head in Hadded. rewrite <- Hadded.
    unfold recorded. by rewrite Hclean. }
  destruct (Hquiet Hnone) as [Hrecords Hsink].
  split; [|by rewrite Hadded, Hnone, app_nil_r].
  rewrite assess_threats in Hclean. apply app_eq_nil in Hclean as [Hrate Hlabels].
  unfold assess, pattern_rule, analysis_result. simpl. rewrite Hlabels.
  by destruct (rate_exceeded _ _ _ _).
Qed.

(** ** Alert delivery *)

(** A session with a named server that meets no refusal delivers the message
    and logs nothing. *)
Lemma _send_alert_delivers
  (tr : smtp_transport) (inc : incident) (st : monitor)
  (from : string) (recipients : list string) (host : string) (port_number : Z)
  (smtp : smtp_settings_t) :
  addressable (alert_settings st) from recipients host port_number smtp ->
  host <> "" ->
  username smtp = None \/ password smtp <> None ->
  transport_works tr ->
  exists msg st',
    _send_alert tr inc st = (Ok tt, st') /\
    alert_sink st' = alert_sink st ++ [msg] /\
    describes (model_name st) msg inc /\
    msg_from msg = from /\
    msg_to msg = String.concat ", " recipients /\
    log_records st' = log_records st.
Proof.
  intros (Hsmtp & Hsender & Hrecipients & Hserver & Hport) Hnamed%String.eqb_neq
    Hcredentials (Hconnect & Htls & Hlogin & Hsend & Hquit).
  unfold _send_alert. unfold_monad.
  rewrite Hsmtp, Hsender, Hrecipients, Hserver, Hport, Hnamed, Hconnect, Htls, Hquit, Hsend.
  destruct (username smtp) as [user|] eqn:Huser.
  - destruct (password smtp) as [pass|] eqn:Hpass;
      [|destruct Hcredentials; [discriminate|done]].
    rewrite Hlogin. destruct (default false (use_tls smtp));
      eexists _, _; (split; [reflexivity|]); by repeat split.
  - destruct (default false (use_tls smtp));
      eexists _, _; (split; [reflexivity|]); by repeat split.
Qed.

(** X19: with settings that hold sender, recipients, the name of a server,
    a port and, when a user name is set, the password, and a session of which
    every step succeeds, [_send_alert] delivers exactly one message, rendered
    from the incident, from the configured sender to the recipients joined by
    a comma, and logs nothing. *)
Theorem alert_delivered_when_transport_works
  (tr : smtp_transport) (inc : incident) (st : monitor)
  (from : string) (recipients : list string) (host : string) (port_number : Z)
  (smtp : smtp_settings_t) :
  addressable (alert_settings st) from recipients host port_number smtp ->
  host <> "" ->
  username smtp = None \/ password smtp <> None ->
  transport_works tr ->
  exists msg st',
    _send_alert tr inc st = (Ok tt, st') /\
    alert_sink st' = alert_sink st ++ [msg] /\
    describes (model_name st) msg inc /\
    msg_from msg = from /\
    msg_to msg = String.concat ", " recipients /\
    log_records st' = log_records st.
Proof.
  intros Haddr Hnamed Hcredentials Hworks.
  exact (_send_alert_delivers tr inc st from recipients host port_number smtp
           Haddr Hnamed Hcredentials Hworks).
Qed.

Lemma alert_delivered_when_transport_works_witness :
  exists msg st',
    _send_alert working_transport sample_incident (new_monitor (example_settings 5))
      = (Ok tt, st') /\
    alert_sink st' = alert_sink (new_monitor (example_settings 5)) ++ [msg] /\
    describes (model_name (new_monitor (example_settings 5))) msg sample_incident /\
    msg_from msg = "monitor@example.org" /\
    msg_to msg = String.concat ", " ["soc@example.org"] /\
    log_records st' = log_records (new_monitor (example_settings 5)).
Proof.
  apply (alert_delivered_when_transport_works working_transport sample_incident
           (new_monitor (example_settings 5)) "monitor@example.org" ["soc@example.org"]
           "smtp.example.org" 587 example_smtp).
  - by repeat split.
  - discriminate.
  - right. discriminate.
  - by repeat split.
Defined.



(** A connection found lost at QUIT, after the message was accepted: the
    message is delivered and nothing is logged. *)
Example lost_connection_at_quit_is_silent :
  let '(r, st') :=
    _send_alert vanishing_transport sample_incident (new_monitor (plain_settings 5)) in
  r = Ok tt /\ length (alert_sink st') = 1%nat /\ log_records st' = [].
Proof. vm_compute. by repeat split. Qed.

(** X21: when the settings lack the SMTP section, the sender, the recipients,
    the server or the port, [_send_alert] fails on the missing key before any
    session is opened: whatever the server would answer, nothing is delivered
    and the [KeyError] is logged. *)
Theorem incomplete_settings_never_reach_server
  (tr : smtp_transport) (inc : incident) (st : monitor) :
  ~ (exists from recipients host port_number smtp,
       addressable (alert_settings st) from recipients host port_number smtp) ->
  exists key st',
    _send_alert tr inc st = (Ok tt, st') /\
    (forall tr', _send_alert tr' inc st = (Ok tt, st')) /\
    alert_sink st' = alert_sink st /\
    log_records st' = log_records st ++ [Error_send_alert (KeyError key)].
Proof.
  intros Hnot. unfold _send_alert. unfold_monad. simpl.
  destruct (smtp_settings (alert_settings st)) as [smtp|] eqn:Hsmtp;
    [|by eexists _, _].
  destruct (sender smtp) as [from|] eqn:Hsender; [|by eexists _, _].
  destruct (email_recipients (alert_settings st)) as [recipients|] eqn:Hrecipients;
    [|by eexists _, _].
  destruct (server smtp) as [host|] eqn:Hserver; [|by eexists _, _].
  destruct (port smtp) as [port_number|] eqn:Hport; [|by eexists _, _].
  destruct Hnot. by exists from, recipients, host, port_number, smtp.
Qed.

Lemma incomplete_settings_never_reach_server_witness :
  exists key st',
    _send_alert working_transport sample_incident (new_monitor settings_without_smtp)
      = (Ok tt, st') /\
    (forall tr', _send_alert tr' sample_incident (new_monitor settings_without_smtp)
                 = (Ok tt, st')) /\
    alert_sink st' = alert_sink (new_monitor settings_without_smtp) /\
    log_records st' =
      log_records (new_monitor settings_without_smtp) ++ [Error_send_alert (KeyError key)].
Proof.
  apply (incomplete_settings_never_reach_server working_transport sample_incident
           (new_monitor settings_without_smtp)).
  intros (from & recipients & host & port_number & smtp & Hsmtp & _).
  simpl in Hsmtp. discriminate Hsmtp.
Defined.

(** X22: when the connection is refused nothing is delivered, whatever the
    later steps would answer, and the failure is logged with the exception of
    the connection. *)
Theorem refused_connection_delivers_nothing
  (tr : smtp_transport) (inc : incident) (st : monitor)
  (from : string) (recipients : list string) (host : string) (port_number : Z)
  (smtp : smtp_settings_t) (e : exn) :
  addressable (alert_settings st) from recipients host port_number smtp ->
  smtp_connect tr host port_number = Some e ->
  exists st',
    _send_alert tr inc st = (Ok tt, st') /\
    alert_sink st' = alert_sink st /\
    log_records st' = log_records st ++ [Error_send_alert e].
Proof.
  intros (Hsmtp & Hsender & Hrecipients & Hserver & Hport) Hconnect.
  unfold _send_alert. unfold_monad.
  rewrite Hsmtp, Hsender, Hrecipients, Hserver, Hport, Hconnect. by eexists.
Qed.

Lemma refused_connection_delivers_nothing_witness :
  exists st',
    _send_alert unreachable_transport sample_incident (new_monitor (example_settings 5))
      = (Ok tt, st') /\
    alert_sink st' = alert_sink (new_monitor (example_settings 5)) /\
    log_records st' =
      log_records (new_monitor (example_settings 5))
        ++ [Error_send_alert (OSError "Connection refused")].
Proof.
  apply (refused_connection_delivers_nothing unreachable_transport sample_incident
           (new_monitor (example_settings 5)) "monitor@example.org" ["soc@example.org"]
           "smtp.example.org" 587 example_smtp).
  - by repeat split.
  - reflexivity.
Defined.

(** X28: with an empty server name no connection is opened, and whatever
    the steps of a session would answer, nothing is delivered: the first
    command fails on the missing connection and the failure is logged, unless
    the look-up of a missing password fails before it. *)
Theorem unnamed_server_delivers_nothing
  (tr : smtp_transport) (inc : incident) (st : monitor)
  (from : string) (recipients : list string) (port_number : Z) (smtp : smtp_settings_t) :
  addressable (alert_settings st) from recipients "" port_number smtp ->
  smtp_connect tr "" port_number = None ->
  exists e st',
    _send_alert tr inc st = (Ok tt, st') /\
    alert_sink st' = alert_sink st /\
    log_records st' = log_records st ++ [Error_send_alert e] /\
    (e = SMTPServerDisconnected "please run connect() first" \/
     e = KeyError "password" /\ default false (use_tls smtp) = false /\
     username smtp <> None /\ password smtp = None).
Proof.
  intros (Hsmtp & Hsender & Hrecipients & Hserver & Hport) Hconnect.
  unfold _send_alert. unfold_monad.
  rewrite Hsmtp, Hsender, Hrecipients, Hserver, Hport, Hconnect. simpl.
  destruct (default false (use_tls smtp)); simpl.
  - eexists _, _. split; [reflexivity|]. split; [reflexivity|]. split; [reflexivity|].
    by left.
  - destruct (username smtp) as [user|]; simpl.
    + destruct (password smtp) as [pass|]; simpl;
        eexists _, _; (split; [reflexivity|]); (split; [reflexivity|]);
        (split; [reflexivity|]); [by left|right; by repeat split].
    + eexists _, _. split; [reflexivity|]. split; [reflexivity|]. split; [reflexivity|].
      by left.
Qed.

Lemma unnamed_server_delivers_nothing_witness :
  exists e st',
    _send_alert working_transport sample_incident (new_monitor unnamed_server_settings)
      = (Ok tt, st') /\
    alert_sink st' = alert_sink (new_monitor unnamed_server_settings) /\
    log_records st' =
      log_records (new_monitor unnamed_server_settings) ++ [Error_send_alert e].
Proof.
  destruct (unnamed_server_delivers_nothing working_transport sample_incident
              (new_monitor unnamed_server_settings) "monitor@example.org"
              ["soc@example.org"] 25
              {| sender := Some "monitor@example.org"; server := Some "";
                 port := Some 25; use_tls := None; username := None; password := None |})
    as (e & st' & Hrun & Hsink & Hlog & _).
  - by repeat split.
  - reflexivity.
  - exists e, st'. repeat split; assumption.
Defined.

(** With an empty server name and a session that would accept everything,
    the failure logged is the missing connection. *)
Example unnamed_server_logs_missing_connection :
  let '(r, st') :=
    _send_alert working_transport sample_incident (new_monitor unnamed_server_settings) in
  r = Ok tt /\ alert_sink st' = [] /\
  log_records st' =
    [Error_send_alert (SMTPServerDisconnected "please run connect() first")].
Proof. vm_compute. by repeat split. Qed.

Lemma send_failures_app st st' l :
  log_records st' = log_records st ++ l ->
  List.filter is_send_failure l = [] ->
  send_failures st' = send_failures st.
Proof.
  intros Hlog Hl. unfold send_failures. by rewrite Hlog, List.filter_app, Hl, app_nil_r.
Qed.

(** With deliverable settings and a server that accepts every step, a call
    delivers one message for the incident it records and logs no failure. *)
Lemma detect_threat_delivers numpy tr now current_time req st :
  deliverable (alert_settings st) ->
  transport_works tr ->
  let st' := snd (detect_threat numpy tr now current_time req st) in
  exists added msgs,
    incident_log st' = incident_log st ++ added /\
    alert_sink st' = alert_sink st ++ msgs /\
    Forall2 (describes (model_name st)) msgs added /\
    send_failures st' = send_failures st.
Proof.
  intros (from & recipients & host & port_number & smtp & Haddr & Hnamed & Hcred) Hworks.
  simpl. destruct (detect_threat numpy tr now current_time req st) as [r st'] eqn:Hrun.
  simpl. revert Hrun.
  destruct (configured_limit st) as [limit|e] eqn:Hlimit.
  2: { rewrite (detect_threat_raises _ _ _ _ _ _ e Hlimit). intros [= <- <-]. simpl.
       exists [], []. rewrite !app_nil_r. by repeat split. }
  unfold detect_threat. unfold bind at 1. rewrite _check_rate_limit_run, Hlimit.
  fold (rate_exceeded limit st (ip_address req) current_time).
  set (st0 := set_request_history _ st).
  destruct (_analyze_input_patterns_log numpy (input_data req) st0)
    as (st1 & Hrun1 & (Hn1 & Hs1 & Hl1 & _) & Hsink1 & Hlog1).
  assert (Hfail1 : send_failures st1 = send_failures st).
  { apply (send_failures_app st0 st1 _ Hlog1).
    by destruct (analysis_checks numpy (input_data req) []) as [[[]|e] suspicious]. }
  unfold bind at 1. rewrite Hrun1. fold (assess numpy now
    (rate_exceeded limit st (ip_address req) current_time) (input_data req)).
  set (ta := assess _ _ _ _).
  destruct (threats_detected ta) as [|label labels] eqn:Hthreats.
  - unfold bind, ret. intros [= <- <-]. exists [], []. rewrite !app_nil_r.
    by repeat split.
  - assert (Hsev : ta_severity ta <> low).
    { apply assess_severity. fold ta. by rewrite Hthreats. }
    destruct (_log_incident_run tr ta req st1) as (st2 & Hrun2 & Hsend & Hsame2).
    rewrite bool_decide_eq_false_2 in Hsend by exact Hsev.
    unfold bind at 1. rewrite Hrun2. unfold ret. intros [= <- <-].
    destruct Hsame2 as (_ & _ & Hl2 & _).
    set (st1' := set_incident_log _ _) in *.
    assert (Haddr' : addressable (alert_settings st1') from recipients host port_number smtp).
    { unfold st1'. simpl. by rewrite Hs1. }
    destruct (_send_alert_delivers tr (incident_of ta req) st1' from recipients host
                port_number smtp Haddr' Hnamed Hcred Hworks)
      as (msg & st3 & Hrun3 & Hsink3 & Hdescribes & _ & _ & Hlog3).
    rewrite Hrun3 in Hsend. injection Hsend as <-.
    exists [incident_of ta req], [msg].
    split; [rewrite Hl2; unfold st1'; simpl; by rewrite Hl1|].
    split; [rewrite Hsink3; unfold st1'; simpl; by rewrite Hsink1|].
    split.
    { constructor; [|constructor]. unfold st1' in Hdescribes. simpl in Hdescribes.
      by rewrite Hn1 in Hdescribes. }
    rewrite <- Hfail1. unfold send_failures. rewrite Hlog3. unfold st1'. simpl.
    rewrite List.filter_app. simpl. by rewrite app_nil_r.
Qed.

Lemma run_model_name calls st : model_name (run calls st) = model_name st.
Proof.
  induction calls as [|c calls IH] using rev_ind; [reflexivity|].
  by rewrite run_snoc, reachable_model_name_effects.
Qed.

(** X23: with settings that name a server and hold what a session needs,
    and sessions of which every step succeeds, a sequence of calls delivers
    exactly one message for each incident it records, in the order of the
    log, and logs no send failure. *)
Theorem working_server_delivers_every_incident (calls : list call) (st : monitor) :
  deliverable (alert_settings st) ->
  Forall (fun c => transport_works (call_transport c)) calls ->
  exists added msgs,
    incident_log (run calls st) = incident_log st ++ added /\
    alert_sink (run calls st) = alert_sink st ++ msgs /\
    Forall2 (describes (model_name st)) msgs added /\
    send_failures (run calls st) = send_failures st.
Proof.
  intros Hsettings. induction calls as [|c calls IH] using rev_ind; intros Hworks.
  - exists [], []. rewrite !app_nil_r. by repeat split.
  - apply Forall_app in Hworks as [Hcalls Hc]. apply Forall_inv in Hc.
    destruct (IH Hcalls) as (added & msgs & Hlog & Hsink & Hall & Hfail).
    assert (Hsettings' : deliverable (alert_settings (run calls st))).
    { by rewrite run_settings. }
    rewrite run_snoc. unfold call_detect.
    destruct (detect_threat_delivers (call_numpy c) (call_transport c) (call_now c) (call_time c)
                (call_request c) (run calls st) Hsettings' Hc)
      as (added' & msgs' & Hlog' & Hsink' & Hall' & Hfail').
    exists (added ++ added'), (msgs ++ msgs').
    rewrite Hlog', Hlog, Hsink', Hsink, Hfail', Hfail, !app_assoc.
    split; [reflexivity|]. split; [reflexivity|]. split; [|reflexivity].
    apply Forall2_app; [exact Hall|]. by rewrite run_model_name in Hall'.
Qed.

Lemma working_server_delivers_every_incident_witness :
  exists added msgs,
    incident_log (run [burst_call 0; burst_call 1000000] (new_monitor (example_settings 0)))
      = incident_log (new_monitor (example_settings 0)) ++ added /\
    alert_sink (run [burst_call 0; burst_call 1000000] (new_monitor (example_settings 0)))
      = alert_sink (new_monitor (example_settings 0)) ++ msgs /\
    Forall2 (describes (model_name (new_monitor (example_settings 0)))) msgs added /\
    send_failures (run [burst_call 0; burst_call 1000000] (new_monitor (example_settings 0)))
      = send_failures (new_monitor (example_settings 0)).
Proof.
  apply (working_server_delivers_every_incident
           [burst_call 0; burst_call 1000000] (new_monitor (example_settings 0))).
  - exists "monitor@example.org", ["soc@example.org"], "smtp.example.org", 587, example_smtp.
    split; [by repeat split|]. split; [discriminate|]. right. discriminate.
  - repeat constructor.
Defined.

(** ** Constant arrays *)

(** The difference of a value with itself, divided by the unit spacing, is
    zero or not a number, and in either case not above 100. *)
Lemma constant_step_small c :
  PrimFloat.ltb 100%float
    (PrimFloat.abs (PrimFloat.div (PrimFloat.sub c c) 1%float)) = false.
Proof.
  rewrite FloatAxioms.ltb_spec, FloatAxioms.abs_spec, FloatAxioms.div_spec,
    FloatAxioms.sub_spec.
  destruct (Prim2SF c) as [s|s| |s m e] eqn:Hc.
  - destruct s; vm_compute; reflexivity.
  - destruct s; vm_compute; reflexivity.
  - vm_compute; reflexivity.
  - unfold SF64sub, SFsub. rewrite Z.min_id, Z.sub_diag.
    change (binary_normalize prec emax 0 e false) with (S754_zero false).
    vm_compute. reflexivity.
Qed.

(** X24: an array all of whose elements are the same value is never reported
    as [potential_adversarial_pattern], whatever its shape: with two or more
    dimensions the first gradient element is the difference of two equal
    values, which is zero or not a number. *)
Theorem constant_array_not_adversarial
  (numpy : numpy_release) (input : py_value) (shape : list nat) (c : float) :
  np_asarray input = Ok (Float64Array shape (repeat c (prod_shape shape))) ->
  ~ In "potential_adversarial_pattern" (analysis_labels numpy input).
Proof.
  intros Harray Hin. rewrite (analysis_labels_numeric _ _ _ _ Harray) in Hin.
  destruct (Nat.ltb_spec 1 (length shape)) as [Hdim|Hdim];
    [|repeat (break_match_in Hin; simpl in Hin); simpl in Hin; intuition discriminate].
  destruct (np_gradient shape (repeat c (prod_shape shape))) as [gradient|e] eqn:Hgradient;
    [|repeat (break_match_in Hin; simpl in Hin); simpl in Hin; intuition discriminate].
  destruct (np_all (np_greater (np_abs (concat gradient)) 100%float)) eqn:Hall;
    [|repeat (break_match_in Hin; simpl in Hin); simpl in Hin; intuition discriminate].
  clear Hin. unfold np_gradient in Hgradient.
  destruct (forallb _ shape) eqn:Hlong; [|discriminate].
  destruct shape as [|n rest]; [simpl in Hdim; lia|].
  cbn [forallb] in Hlong. apply andb_prop in Hlong as [Hn Hrest].
  apply Nat.leb_le in Hn. apply long_axes_nonempty in Hrest.
  injection Hgradient as <-. cbn [strides combine List.map concat fst snd] in Hall.
  unfold prod_shape in *. cbn [fold_right] in Hall.
  set (stride := fold_right Nat.mul 1%nat rest) in *.
  destruct n as [|[|k]]; [lia|lia|].
  assert (Hlen : (S (S k) * stride = S (stride + (k * stride + (stride - 1))))%nat) by nia.
  rewrite Hlen in Hall. unfold gradient_axis in Hall.
  cbn [repeat gradient_from] in Hall.
  rewrite Nat.Div0.div_0_l, Nat.Div0.mod_0_l in Hall. cbn [Nat.eqb Nat.add] in Hall.
  assert (Hnth : nth stride (c :: repeat c (stride + (k * stride + (stride - 1)))) 0%float = c).
  { destruct stride as [|stride']; [done|]. cbn [nth]. rewrite nth_repeat_lt; [done|lia]. }
  rewrite Hnth in Hall. unfold np_all, np_greater, np_abs in Hall.
  cbn [app List.map forallb] in Hall. by rewrite constant_step_small in Hall.
Qed.

Lemma constant_array_not_adversarial_witness :
  ~ In "potential_adversarial_pattern" (analysis_labels numpy_before_2_3 constant_matrix).
Proof.
  apply (constant_array_not_adversarial numpy_before_2_3 constant_matrix [2%nat; 2%nat] 7%float).
  vm_compute. reflexivity.
Defined.

(** A matrix that rises by more than a hundred per step along both axes is
    reported, and nothing else is. *)
Example steep_matrix_adversarial :
  analysis_labels numpy_before_2_3 steep_matrix = ["potential_adversarial_pattern"].
Proof. vm_compute. reflexivity. Qed.

(** ** Stored incidents *)

Lemma occurrences_at_most_one label labels :
  List.NoDup labels -> (occurrences label labels <= 1)%nat.
Proof.
  unfold occurrences. induction 1 as [|x l Hx _ IH]; simpl; [lia|].
  destruct (String.eqb_spec label x) as [->|Hne]; simpl; [|lia].
  assert (Hnone : List.filter (String.eqb x) l = []).
  { clear IH. induction l as [|y l IH]; simpl; [reflexivity|].
    destruct (String.eqb_spec x y) as [->|_]; [destruct Hx; by left|].
    apply IH. intros Hin. apply Hx. by right. }
  rewrite Hnone. simpl. lia.
Qed.

Lemma occurrences_concat label (lists : list (list string)) :
  Forall (fun labels => List.NoDup labels) lists ->
  (occurrences label (concat lists) <= length lists)%nat.
Proof.
  induction 1 as [|labels lists Hlabels _ IH]; simpl; [unfold occurrences; simpl; lia|].
  unfold occurrences in *. rewrite List.filter_app, length_app.
  pose proof (occurrences_at_most_one label labels Hlabels) as Hone.
  unfold occurrences in Hone. lia.
Qed.

Lemma occurrences_positive label labels :
  (0 < occurrences label labels)%nat -> In label labels.
Proof.
  unfold occurrences. induction labels as [|x l IH]; simpl; [lia|].
  destruct (String.eqb_spec label x) as [->|_]; [by left|]. intros H. right. by apply IH.
Qed.

(** The labels of every incident of a reachable log are labels of an
    assessment: at least one, distinct, in detection order. *)
Lemma reachable_incident_labels st :
  reachable st ->
  Forall (fun inc => threats inc <> [] /\ List.NoDup (threats inc) /\
                     sublist (threats inc) all_labels)
    (incident_log st).
Proof.
  induction 1 as [basicConfig today name settings logging_path st Hinit
                 | st c _ IH | st now hours _ IH].
  - unfold __init__ in Hinit. destruct (basicConfig _); [discriminate|].
    injection Hinit as <-. constructor.
  - unfold call_detect.
    pose proof (assessment_labels_order (call_numpy c) (call_transport c) (call_now c) (call_time c)
                  (call_request c) st) as Horder.
    destruct (configured_limit st) as [limit|e] eqn:Hlimit.
    + destruct (detect_threat_returns (call_numpy c) (call_transport c) (call_now c) (call_time c)
                  (call_request c) st limit Hlimit) as (st' & Hrun & _ & _ & Hlog & _).
      rewrite Hrun in *. simpl. rewrite Hlog. apply Forall_app. split; [exact IH|].
      unfold recorded. destruct (threats_detected _) eqn:Hthreats; [constructor|].
      constructor; [|constructor]. simpl. rewrite Hthreats.
      destruct Horder as (Hsub & Hnodup & _). by repeat split.
    + by rewrite (detect_threat_raises _ _ _ _ _ _ e Hlimit).
  - by rewrite get_incident_summary_state.
Qed.

(** X25: on a monitor that was constructed and then used through its
    methods, every logged incident carries at least one label, no label
    twice, and its labels in detection order. *)
Theorem logged_incidents_are_labelled (st : monitor) :
  reachable st ->
  Forall (fun inc => threats inc <> [] /\ List.NoDup (threats inc) /\
                     sublist (threats inc) all_labels)
    (incident_log st).
Proof. apply reachable_incident_labels. Qed.

Lemma logged_incidents_are_labelled_witness :
  Forall (fun inc => threats inc <> [] /\ List.NoDup (threats inc) /\
                     sublist (threats inc) all_labels)
    (incident_log (snd (call_detect (alarm_call "10.0.0.1" 0)
                          (new_monitor (example_settings 5))))).
Proof.
  apply (logged_incidents_are_labelled
           (snd (call_detect (alarm_call "10.0.0.1" 0) (new_monitor (example_settings 5))))).
  apply reachable_detect_threat.
  apply (reachable_init logging_ok "20240101" "clf" (example_settings 5) None).
  reflexivity.
Defined.

Lemma concat_at_least_length {A} (lists : list (list A)) :
  Forall (fun l => l <> []) lists -> (length lists <= length (concat lists))%nat.
Proof.
  induction 1 as [|l lists Hl _ IH]; simpl; [lia|].
  rewrite length_app. destruct l; [done|]. simpl. lia.
Qed.

(** X26: on a monitor that was constructed and then used through its
    methods, every summary a call returns names only the five labels a call
    can report, each with a count between 1 and the number of selected
    incidents, and the counts together are at least that number; a call whose
    cutoff is a [datetime] returns one. *)
Theorem summary_labels_bounded (now : instant) (hours : Z) (st : monitor) :
  reachable st ->
  is_datetime now ->
  is_datetime (now - timedelta_hours hours) ->
  exists s,
    fst (get_incident_summary now hours st) = Ok s /\
    (forall label n,
       In (label, n) (most_common_threats s) ->
       In label all_labels /\ (1 <= n <= total_incidents s)%nat) /\
    (length (most_common_threats s) <= 5)%nat /\
    (total_incidents s <= total_count (most_common_threats s))%nat.
Proof.
  intros Hreach Hnow Hcutoff. exists (summary_of (recent_incidents now hours st)).
  rewrite get_incident_summary_run, (cutoff_representable_datetime _ _ Hnow Hcutoff).
  split; [reflexivity|]. simpl.
  set (recent := recent_incidents now hours st).
  assert (Hrecent : Forall (fun inc => threats inc <> [] /\ List.NoDup (threats inc) /\
                                       sublist (threats inc) all_labels) recent).
  { pose proof (reachable_incident_labels st Hreach) as Hlog.
    rewrite List.Forall_forall in *. intros inc Hin. apply Hlog.
    unfold recent, recent_incidents in Hin. by apply List.filter_In in Hin as [Hin _]. }
  destruct (_get_common_threats_spec recent) as (_ & Hkeys & Hitems).
  assert (Hnamed : forall label n,
             In (label, n) (_get_common_threats recent) ->
             In label all_labels /\ (1 <= n <= length recent)%nat).
  { intros label n [-> Hpos]%Hitems. split.
    - apply occurrences_positive in Hpos. apply in_concat in Hpos as (labels & Hin & Hlabel).
      apply in_map_iff in Hin as (inc & <- & Hinc).
      rewrite List.Forall_forall in Hrecent. destruct (Hrecent inc Hinc) as (_ & _ & Hsub).
      apply list_elem_of_In. eapply elem_of_sublist; [|exact Hsub]. by apply list_elem_of_In.
    - split; [lia|]. rewrite <- (length_map threats recent). apply occurrences_concat.
      apply List.Forall_forall. intros labels (inc & <- & Hinc)%in_map_iff.
      rewrite List.Forall_forall in Hrecent. by destruct (Hrecent inc Hinc) as (_ & ? & _). }
  split; [exact Hnamed|]. split.
  - rewrite <- (length_map fst). change 5%nat with (length all_labels).
    apply submseteq_length. apply NoDup_submseteq; [by apply NoDup_ListNoDup|].
    intros label Hin. apply list_elem_of_In in Hin. apply in_map_iff in Hin as ([l n] & <- & Hin).
    apply list_elem_of_In. by apply (Hnamed l n).
  - rewrite total_count_common_threats, <- (length_map threats recent).
    apply concat_at_least_length. apply List.Forall_forall.
    intros labels (inc & <- & Hinc)%in_map_iff.
    rewrite List.Forall_forall in Hrecent. by destruct (Hrecent inc Hinc) as (? & _).
Qed.

Lemma summary_labels_bounded_witness :
  exists s,
    fst (get_incident_summary 90001000000 24
           (snd (call_detect (alarm_call "10.0.0.1" 90000000000)
                   (new_monitor (example_settings 5)))))
      = Ok s /\
    (length (most_common_threats s) <= 5)%nat /\
    (total_incidents s <= total_count (most_common_threats s))%nat.
Proof.
  destruct (summary_labels_bounded 90001000000 24
              (snd (call_detect (alarm_call "10.0.0.1" 90000000000)
                      (new_monitor (example_settings 5)))))
    as (s & Hs & _ & Hlen & Htotal).
  - apply reachable_detect_threat.
    apply (reachable_init logging_ok "20240101" "clf" (example_settings 5) None).
    reflexivity.
  - by vm_compute.
  - by vm_compute.
  - exists s. repeat split; assumption.
Defined.

(** ** The request history of a running monitor *)

Lemma pruned_history_snoc times t :
  pruned_history (times ++ [t]) =
    List.filter (fun e => t - e <? timedelta_minutes 1) (pruned_history times) ++ [t].
Proof. unfold pruned_history. by rewrite fold_left_app. Qed.

Lemma pruned_history_sublist times : sublist (pruned_history times) times.
Proof.
  induction times as [|t times IH] using rev_ind; [constructor|].
  rewrite pruned_history_snoc. apply sublist_app; [|reflexivity].
  etransitivity; [apply list_filter_sublist|exact IH].
Qed.

(** On a monitor that starts without history, the history of a source after
    any calls is determined by the instants of that source's rate checks. *)
Lemma run_pruned_history calls st ip :
  request_history st = ∅ ->
  request_history (run calls st) !! ip =
    match source_times ip calls with
    | [] => None
    | _ :: _ => Some (pruned_history (source_times ip calls))
    end.
Proof.
  intros Hempty. induction calls as [|c calls IH] using rev_ind.
  - simpl. by rewrite Hempty, lookup_empty.
  - rewrite run_snoc. unfold call_detect. rewrite detect_threat_history.
    rewrite source_times_app, source_times_one.
    case_bool_decide as Hip.
    + rewrite Hip, lookup_insert_eq.
      destruct (source_times ip calls ++ [call_time c]) as [|t times] eqn:Htimes;
        [by apply app_eq_nil in Htimes as [_ ?]|].
      rewrite <- Htimes, pruned_history_snoc. unfold recent_requests_of. rewrite IH.
      by destruct (source_times ip calls).
    + rewrite lookup_insert_ne by exact Hip. by rewrite app_nil_r.
Qed.

(** X27: on a freshly constructed monitor, after any sequence of calls, a
    source has a history exactly when it made a call; the history is the one
    that source's own rate-check instants produce, whatever the other sources
    did: it ends with the instant of the source's latest rate check and holds
    before it, in order, only earlier instants of that source less than sixty
    seconds older than the latest. *)
Theorem history_window_invariant
  (basicConfig : string -> option exn) (today name : string)
  (settings : alert_settings_t) (logging_path : option string)
  (st : monitor) (calls : list call) (ip : string) :
  __init__ basicConfig today name settings logging_path = Ok st ->
  request_history (run calls st) !! ip =
    match source_times ip calls with
    | [] => None
    | _ :: _ => Some (pruned_history (source_times ip calls))
    end /\
  forall entries,
    request_history (run calls st) !! ip = Some entries ->
    exists kept latest,
      entries = kept ++ [latest] /\
      last (source_times ip calls) = Some latest /\
      sublist kept (source_times ip calls) /\
      Forall (fun e => latest - e < 60000000) kept.
Proof.
  intros Hinit.
  assert (Hempty : request_history st = ∅).
  { unfold __init__ in Hinit. destruct (basicConfig _); [discriminate|].
    by injection Hinit as <-. }
  pose proof (run_pruned_history calls st ip Hempty) as Hhistory.
  split; [exact Hhistory|]. intros entries Hentries. rewrite Hhistory in Hentries.
  destruct (source_times ip calls) as [|t times _] using rev_ind; [discriminate|].
  destruct (times ++ [t]) as [|t' times'] eqn:Htimes;
    [by apply app_eq_nil in Htimes as [_ ?]|].
  rewrite <- Htimes in *. injection Hentries as <-. rewrite pruned_history_snoc.
  eexists _, t. split; [reflexivity|]. split; [apply last_snoc|]. split.
  - apply sublist_inserts_r. etransitivity; [apply list_filter_sublist|].
    apply pruned_history_sublist.
  - apply List.Forall_forall. intros e [_ He]%List.filter_In.
    apply Z.ltb_lt in He. unfold timedelta_minutes in He. lia.
Qed.

Lemma history_window_invariant_witness :
  request_history
    (run [burst_call 0; alarm_call "10.0.0.2" 500000; burst_call 1000000;
          burst_call 60500000]
       (new_monitor (example_settings 5))) !! "10.0.0.1"
  = Some [1000000; 60500000].
Proof.
  refine (eq_trans
            (proj1 (history_window_invariant logging_ok "20240101" "clf"
                      (example_settings 5) None (new_monitor (example_settings 5))
                      [burst_call 0; alarm_call "10.0.0.2" 500000; burst_call 1000000;
                       burst_call 60500000]
                      "10.0.0.1" eq_refl)) _).
  vm_compute. reflexivity.
Defined.
